(** * e-chair-game: the round outcome resolver and the turn confirmation barrier

    A shallow embedding of [activateAction] and [changeTurnAction] of
    [src/web/features/room/action.ts], with the properties of the
    specification stated and settled against it, followed by the other
    actions of the file ([entryRoomAction], [selectChairAction],
    [createRoomAction], [joinRoomAction], [setCookies]) and further
    properties read off the code.

    JavaScript numbers that hold points, counts and chair numbers are
    integers of [Z]; ids are strings; arrays are lists; [null] and
    [undefined] are kept apart where the code can produce both. *)

From Stdlib Require Import ZArith List String Bool Lia.
Import ListNotations.

#[local] Open Scope string_scope.
#[local] Open Scope Z_scope.

(** ** Data model *)

(** Modelled from the spec: the declarations of [@/types/room] ([Player],
    [Round], [GameRoom]) are not among the sources; the records below follow
    section 3 of the specification and the field accesses of [action.ts]. *)
Record Player := mkPlayer {
  id : string;
  name : string;
  ready : bool;
  point : Z;
  shockedCount : Z
}.

Inductive Turn := top | bottom.

(** The phases ["select"], ["activate"] and ["result"]. *)
Inductive Phase := phase_select | phase_activate | phase_result.

Inductive Status := shocked | safe.

Record RoundResult := mkRoundResult {
  status : option Status;
  confirmedIds : list string;
  shownResult : bool
}.

Record Round := mkRound {
  attackerId : string;
  turn : Turn;
  count : Z;
  phase : Phase;
  electricChair : option Z;
  seatedChair : option Z;
  result : RoundResult
}.

(** [winnerId] is [null] while the game goes on and a string afterwards;
    [players.find(...)?.id] can also store [undefined] in it. *)
Inductive WinnerId :=
| WNull
| WUndefined
| WId (w : string).

Record GameRoom := mkGameRoom {
  roomId : string;
  players : list Player;
  round : Round;
  remainingChairs : list Z;
  winnerId : WinnerId
}.

(** [Partial<GameRoom>]: every top-level field may be absent. *)
Record PartialGameRoom := mkPartial {
  p_players : option (list Player);
  p_round : option Round;
  p_remainingChairs : option (list Z);
  p_winnerId : option WinnerId
}.

(** A call either returns or throws; the only exception the modelled code can
    raise by itself is the [TypeError] of [reduce] on an empty array. *)
Inductive Outcome (A : Type) :=
| Ok (a : A)
| Throw_TypeError.
Arguments Ok {A} a.
Arguments Throw_TypeError {A}.

(** ** Strict equality on the values compared by the code *)

(** [a === b] for [number | null] operands. *)
Definition chair_eqb (a b : option Z) : bool :=
  match a, b with
  | Some x, Some y => x =? y
  | None, None => true
  | _, _ => false
  end.

(** ** The resolver: [activateAction] *)

(** [round.electricChair === round.seatedChair] *)
Definition isShocked (r : Round) : bool :=
  chair_eqb (electricChair r) (seatedChair r).

(** [round.seatedChair || 0] *)
Definition seatedOrZero (r : Round) : Z :=
  match seatedChair r with
  | Some n => n
  | None => 0
  end.

(** The callback of [players.map] (lines 132-141). *)
Definition updatePlayer (r : Round) (player : Player) : Player :=
  if (id player =? attackerId r)%string then
    mkPlayer (id player) (name player) (ready player)
      (if isShocked r then 0 else point player + seatedOrZero r)
      (if isShocked r then shockedCount player + 1 else shockedCount player)
  else player.

Definition updatedPlayers (room : GameRoom) : list Player :=
  map (updatePlayer (round room)) (players room).

(** Lines 144-146: [filter((chair) => chair !== round.seatedChair)]. *)
Definition updatedChairs (room : GameRoom) : list Z :=
  if isShocked (round room) then remainingChairs room
  else filter (fun chair => negb (chair_eqb (Some chair) (seatedChair (round room))))
              (remainingChairs room).

(** The [filter] of line 146 on a seated chair [s]. *)
Definition removeChair (s : Z) (cs : list Z) : list Z :=
  filter (fun chair => negb (chair_eqb (Some chair) (Some s))) cs.

(** [room.data.players.find((player) => player.id !== attackerId)?.id] *)
Definition defenderId (room : GameRoom) : WinnerId :=
  match find (fun player => negb (id player =? attackerId (round room))%string)
             (players room) with
  | Some player => WId (id player)
  | None => WUndefined
  end.

(** The accumulator of the [reduce] of lines 159-166 is a [Player] or the
    object [{ id: "draw" }], whose [point] is [undefined]. *)
Record Acc := mkAcc {
  acc_id : string;
  acc_point : option Z
}.

Definition acc_of (player : Player) : Acc :=
  mkAcc (id player) (Some (point player)).

(** The callback of [reduce]; a comparison with [undefined] is false. *)
Definition pickWinner (prev : Acc) (current : Player) : Acc :=
  match acc_point prev with
  | Some pp =>
      if pp <? point current then acc_of current
      else if point current =? pp then mkAcc "draw" None
      else prev
  | None => prev
  end.

(** [Array.prototype.reduce] without an initial value. *)
Definition reduceWinner (ps : list Player) : Outcome Acc :=
  match ps with
  | [] => Throw_TypeError
  | first :: rest => Ok (fold_left pickWinner rest (acc_of first))
  end.

(** Lines 149-168. *)
Definition decideWinner (room : GameRoom) : Outcome WinnerId :=
  if existsb (fun player => 40 <=? point player) (updatedPlayers room) then
    Ok (WId (attackerId (round room)))
  else if existsb (fun player => shockedCount player =? 3) (updatedPlayers room) then
    Ok (defenderId room)
  else if (List.length (updatedChairs room) =? 1)%nat then
    match reduceWinner (updatedPlayers room) with
    | Ok winner => Ok (WId (acc_id winner))
    | Throw_TypeError => Throw_TypeError
    end
  else Ok WNull.

(** The [round] of lines 174-181. *)
Definition resultRound (r : Round) : Round :=
  mkRound (attackerId r) (turn r) (count r) phase_result
    (electricChair r) (seatedChair r)
    (mkRoundResult (Some (if isShocked r then shocked else safe))
       (confirmedIds (result r)) (shownResult (result r))).

(** The [data] handed to [updateRoom] (lines 170-182). *)
Definition activateData (room : GameRoom) : Outcome PartialGameRoom :=
  match decideWinner room with
  | Ok w =>
      Ok (mkPartial (Some (updatedPlayers room)) (Some (resultRound (round room)))
            (Some (updatedChairs room)) (Some w))
  | Throw_TypeError => Throw_TypeError
  end.

(** Modelled from the spec: [updateRoom] of [@/libs/firestore] is not among
    the sources.  Section 6 gives it partial-field merge semantics: only the
    supplied top-level fields are replaced, the others are kept. *)
Definition updateRoom (room : GameRoom) (data : PartialGameRoom) : GameRoom :=
  mkGameRoom (roomId room)
    (match p_players data with Some ps => ps | None => players room end)
    (match p_round data with Some r => r | None => round room end)
    (match p_remainingChairs data with Some cs => cs | None => remainingChairs room end)
    (match p_winnerId data with Some w => w | None => winnerId room end).

(** [activateAction] on a room that [getRoom] has delivered: the room that
    [updateRoom] stores and returns. *)
Definition activateAction (room : GameRoom) : Outcome GameRoom :=
  match activateData room with
  | Ok data => Ok (updateRoom room data)
  | Throw_TypeError => Throw_TypeError
  end.

(** ** The barrier: [changeTurnAction] *)

Section Barrier.

(** [plainRoundData.round] of [@/utils/room] is not among the sources; the
    fresh round the barrier spreads into the next one is a parameter. *)
Variable plainRound : Round.

(** [confirmedIds.find((id) => id !== round.attackerId) ?? confirmedIds[0]].
    The expression is only evaluated when [confirmedIds] has two entries, so
    [confirmedIds[0]] is defined there and the default of [nth] is never
    returned (lemma [nextAttackerId_In]). *)
Definition nextAttackerId (r : Round) (ids : list string) : string :=
  match find (fun i => negb (i =? attackerId r)%string) ids with
  | Some i => i
  | None => nth 0 ids ""
  end.

(** An update that supplies [round] only. *)
Definition roundOnly (r : Round) : PartialGameRoom :=
  mkPartial None (Some r) None None.

(** The resolver function handed to [confirmTurnResult] (lines 199-241);
    [None] is the [null] of line 240. *)
Definition changeTurnResolver (r : Round) (ids : list string)
  : option PartialGameRoom :=
  if (List.length ids =? 1)%nat then
    Some (roundOnly
            (mkRound (attackerId r) (turn r) (count r) (phase r)
               (electricChair r) (seatedChair r)
               (mkRoundResult (status (result r)) ids true)))
  else if (List.length ids =? 2)%nat then
    match turn r with
    | top =>
        Some (roundOnly
                (mkRound (nextAttackerId r ids) bottom (count r)
                   (phase plainRound) (electricChair plainRound)
                   (seatedChair plainRound) (result plainRound)))
    | bottom =>
        Some (roundOnly
                (mkRound (nextAttackerId r ids) top (count r + 1)
                   (phase plainRound) (electricChair plainRound)
                   (seatedChair plainRound) (result plainRound)))
    end
  else None.

(** What a confirmation call does to the stored room. *)
Inductive ConfirmOutcome :=
| NotAuthorizedError
| StaleRoundError
| NoWrite
| Written (room : GameRoom).

(** Modelled from the spec: [confirmTurnResult] of [@/libs/firestore] is not
    among the sources.  Following sections 4.2 and 6: a confirming id that
    is not a player of the room fails with [NotAuthorizedError]; a round
    whose phase is not [result] fails with [StaleRoundError]; otherwise the
    id is appended to the round's [confirmedIds], the resolver function runs
    on the current round and the extended sequence, a [null] answer writes
    nothing and any other answer is merged into the room. *)
Definition confirmTurnResult (room : GameRoom) (userId : string)
    (resolverFn : Round -> list string -> option PartialGameRoom)
  : ConfirmOutcome :=
  if negb (existsb (fun player => (id player =? userId)%string) (players room))
  then NotAuthorizedError
  else
    match phase (round room) with
    | phase_result =>
        match resolverFn (round room)
                (confirmedIds (result (round room)) ++ [userId])%list with
        | Some data => Written (updateRoom room data)
        | None => NoWrite
        end
    | _ => StaleRoundError
    end.

Definition changeTurnAction (room : GameRoom) (userId : string)
  : ConfirmOutcome :=
  confirmTurnResult room userId changeTurnResolver.

(** The room stored after a confirmation call. *)
Definition storedAfter (room : GameRoom) (o : ConfirmOutcome) : GameRoom :=
  match o with
  | Written room' => room'
  | _ => room
  end.

(** ** Sequences of calls on one room *)

Inductive Call :=
| CallActivate
| CallConfirm (userId : string).

(** A call that throws or fails leaves the stored room as it was. *)
Definition applyCall (room : GameRoom) (c : Call) : GameRoom :=
  match c with
  | CallActivate =>
      match activateAction room with
      | Ok room' => room'
      | Throw_TypeError => room
      end
  | CallConfirm userId => storedAfter room (changeTurnAction room userId)
  end.

Definition applyCalls (room : GameRoom) (cs : list Call) : GameRoom :=
  fold_left applyCall cs room.

Definition isConfirm (c : Call) : bool :=
  match c with
  | CallConfirm _ => true
  | CallActivate => false
  end.

End Barrier.

(** Modelled from the spec: the value of [plainRoundData.round] is not among
    the sources.  Section 4.2 calls it the initial "select" state: phase
    [select], no electric chair, no seated chair, no status, no confirmation,
    result not shown; a room starts with the first half ([top]) of count 1. *)
Definition plainRoundData_round : Round :=
  mkRound "" top 1 phase_select None None (mkRoundResult None [] false).

(** ** Sample rooms *)

Definition samplePlayer (i : string) (pt sc : Z) : Player :=
  mkPlayer i i true pt sc.

Definition sampleRound (att : string) (e s : option Z) : Round :=
  mkRound att top 1 phase_activate e s (mkRoundResult None [] false).

Definition sampleRoom (ps : list Player) (r : Round) (cs : list Z) : GameRoom :=
  mkGameRoom "room" ps r cs WNull.

(** A shocked round on chair 0 with an attacker at 0 points: the point "grows"
    by the seated chair (0) and the shock counter grows by one, so both
    members of the alternative hold together. *)
Definition roomChairZero : GameRoom :=
  sampleRoom [samplePlayer "p1" 0 0; samplePlayer "p2" 0 0]
    (sampleRound "p1" (Some 0) (Some 0)) [0; 1; 2; 3].

(** A room in which the defender already holds 40 points: the attacker's safe
    seat makes the score test succeed, and the attacker is declared winner. *)
Definition roomDefenderAtForty : GameRoom :=
  sampleRoom [samplePlayer "p1" 40 0; samplePlayer "p2" 0 0]
    (sampleRound "p2" (Some 5) (Some 1)) [1; 2; 3; 4; 5].

(** Scenario C of the specification: one chair left, the attacker takes it
    safely and both players end at 20 points. *)
Definition roomScenarioC : GameRoom :=
  sampleRoom [samplePlayer "p1" 20 0; samplePlayer "p2" 16 0]
    (sampleRound "p2" (Some 5) (Some 4)) [4].

(** A round still in its [select] phase, with no seat chosen. *)
Definition roomNoSeat : GameRoom :=
  mkGameRoom "room" [samplePlayer "p1" 10 0; samplePlayer "p2" 0 0]
    (mkRound "p1" top 1 phase_select (Some 5) None (mkRoundResult None [] false))
    [1; 2; 3; 4; 5] WNull.

Definition roomSaturated : GameRoom :=
  mkGameRoom "room" [samplePlayer "p1" 3 0; samplePlayer "p2" 0 0]
    (mkRound "p1" top 1 phase_result (Some 5) (Some 3)
       (mkRoundResult (Some safe) ["p1"; "p2"] true))
    [1; 2; 4; 5] WNull.

(** The attacker stands at two shocks and sits on the electric chair. *)
Definition roomTwoShocks : GameRoom :=
  sampleRoom [samplePlayer "p1" 0 2; samplePlayer "p2" 0 0]
    (sampleRound "p1" (Some 3) (Some 3)) [1; 2; 3; 4; 5].

(** The attacker holds 10 points and sits on the electric chair. *)
Definition roomShockAtTen : GameRoom :=
  sampleRoom [samplePlayer "p1" 10 0; samplePlayer "p2" 0 0]
    (sampleRound "p1" (Some 3) (Some 3)) [1; 2; 3; 4; 5].

(** A last chair, taken safely by an attacker far from 40 points. *)
Definition roomLastChair : GameRoom :=
  sampleRoom [samplePlayer "p1" 0 0; samplePlayer "p2" 0 0]
    (sampleRound "p1" (Some 5) (Some 4)) [4].

(** ** The other actions of [action.ts] *)

(** *** [entryRoomAction] *)

(** The callback of [players.map] of lines 83-91: [{ ...player, ready: true }]
    for the entering user, the player itself otherwise. *)
Definition markReady (userId : string) (player : Player) : Player :=
  if (id player =? userId)%string then
    mkPlayer (id player) (name player) true (point player) (shockedCount player)
  else player.

Inductive EntryOutcome :=
| EntryError (error : string)
| EntryData (data : GameRoom).

(** Lines 78-96, on a room that [getRoom] has delivered: the error of line 80
    or the [data] of line 93, [{ ...room.data, players: playersData }], that
    is handed to [updateRoom]. *)
Definition entryRoomData (room : GameRoom) (userId : string) : EntryOutcome :=
  if existsb (fun player => (id player =? userId)%string) (players room) then
    EntryData (mkGameRoom (roomId room) (map (markReady userId) (players room))
                 (round room) (remainingChairs room) (winnerId room))
  else EntryError "このルームのプレイヤーではありません".

(** *** [selectChairAction] *)

(** What [updateRoom] answers: the fields of the response that the actions
    read. *)
Record StoreResponse := mkStoreResponse {
  store_status : Z;
  store_error : option string
}.

(** The object an action returns: [{ status, error }]. *)
Record ActionResponse := mkActionResponse {
  res_status : Z;
  res_error : option string
}.

(** Lines 105-118.  [updateRoom] is the store's answer to a write; the first
    component of the result lists the writes issued, in order.  [!roomId]
    holds for [null] and for the empty string; [roundData] is a round or
    [undefined]. *)
Definition selectChairAction
    (updateRoom : string -> PartialGameRoom -> StoreResponse)
    (roomId : option string) (roundData : option Round)
  : list (string * PartialGameRoom) * ActionResponse :=
  match roomId, roundData with
  | Some rid, Some rd =>
      if (rid =? "")%string then
        ([], mkActionResponse 400
               (Some "ルームIDとラウンドデータを指定してください"))
      else
        let res := updateRoom rid (roundOnly rd) in
        ([(rid, roundOnly rd)],
         if store_status res =? 200 then mkActionResponse 200 (Some "")
         else mkActionResponse (store_status res) (store_error res))
  | _, _ =>
      ([], mkActionResponse 400
             (Some "ルームIDとラウンドデータを指定してください"))
  end.

(** *** [setCookies], [createRoomAction] and [joinRoomAction] *)

(** The object given to [cookieStore.set] (lines 56-62). *)
Record Cookie := mkCookie {
  cookie_name : string;
  cookie_value : string;
  sameSite : string;
  secure : bool;
  httpOnly : bool
}.

(** [value || ""]: the values come from [res.roomId as string], which may be
    [undefined] behind the cast. *)
Definition valueOrEmpty (value : option string) : string :=
  match value with
  | Some v => v
  | None => ""
  end.

(** Lines 51-64; the cookie store is the sequence of [set] calls made on it. *)
Definition setCookies (nameValues : list (string * option string))
    (cookieStore : list Cookie) : list Cookie :=
  fold_left
    (fun store nv =>
       (store ++ [mkCookie (fst nv) (valueOrEmpty (snd nv)) "strict" true true])%list)
    nameValues cookieStore.

(** The cookie [setCookies] sets for one entry. *)
Definition cookieOf (nv : string * option string) : Cookie :=
  mkCookie (fst nv) (valueOrEmpty (snd nv)) "strict" true true.

(** What [createRoom] and [joinRoom] answer: the fields the actions read. *)
Record RoomResponse := mkRoomResponse {
  rr_status : Z;
  rr_error : option string;
  rr_roomId : option string;
  rr_userId : option string
}.

(** An action of lines 15-49 ends by returning [{ error }] or in [redirect]. *)
Inductive ActionResult :=
| ReturnError (error : option string)
| Redirect (path : string).

(** A value spliced into a template literal. *)
Definition interpolate (value : option string) : string :=
  match value with
  | Some v => v
  | None => "undefined"
  end.

(** Lines 15-27, on the answer [res] of [createRoom]. *)
Definition createRoomAction (res : RoomResponse) (cookieStore : list Cookie)
  : list Cookie * ActionResult :=
  if negb (rr_status res =? 200) then (cookieStore, ReturnError (rr_error res))
  else
    (setCookies [("roomId", rr_roomId res); ("userId", rr_userId res)] cookieStore,
     Redirect ("/room/" ++ interpolate (rr_roomId res))%string).

(** Lines 29-49; [formRoomId] is [formData.get("roomId")], [null] when the
    field is missing. *)
Definition joinRoomAction (joinRoom : string -> RoomResponse)
    (formRoomId : option string) (cookieStore : list Cookie)
  : list Cookie * ActionResult :=
  match formRoomId with
  | None => (cookieStore, ReturnError (Some "ルームIDを入力してください"))
  | Some roomId =>
      if (roomId =? "")%string then
        (cookieStore, ReturnError (Some "ルームIDを入力してください"))
      else
        let res := joinRoom roomId in
        if negb (rr_status res =? 200) then (cookieStore, ReturnError (rr_error res))
        else
          (setCookies [("roomId", rr_roomId res); ("userId", rr_userId res)]
             cookieStore,
           Redirect ("/room/" ++ roomId)%string)
  end.

(** A room both players have joined and none has entered. *)
Definition roomBeforeEntry : GameRoom :=
  mkGameRoom "room"
    [mkPlayer "p1" "one" false 0 0; mkPlayer "p2" "two" false 0 0]
    plainRoundData_round [1; 2; 3] WNull.

(** ** Predicates used to state the properties *)

(** What the [reduce] of lines 159-166 has to say about its result [acc] on
    the players [ps]: either [acc] is a player who stands strictly ahead of
    all the others, or it is the draw object and two players are level, the
    first of them ahead of everyone before the second. *)
Definition reduceOutcome (ps : list Player) (acc : Acc) : Prop :=
  (exists l1 p l2,
     ps = (l1 ++ p :: l2)%list /\ acc = acc_of p /\
     Forall (fun q => point q < point p) l1 /\
     Forall (fun q => point q < point p) l2) \/
  (acc = mkAcc "draw" None /\
   exists l1 p l2 q l3,
     ps = (l1 ++ p :: l2 ++ q :: l3)%list /\ point p = point q /\
     Forall (fun x => point x < point p) l1 /\
     Forall (fun x => point x < point p) l2).

(** * Properties *)

Lemma chair_eqb_eq a b : chair_eqb a b = true <-> a = b.
Proof.
  destruct a as [x|], b as [y|]; simpl; split; intro H;
    try discriminate; try reflexivity.
  - apply Z.eqb_eq in H. now subst.
  - injection H as ->. apply Z.eqb_refl.
Qed.

Lemma chair_eqb_neq a b : chair_eqb a b = false <-> a <> b.
Proof.
  rewrite <- chair_eqb_eq. destruct (chair_eqb a b); split; congruence.
Qed.

(** ** Basic facts about the resolver *)

Lemma updatedPlayers_nth room i :
  nth_error (updatedPlayers room) i =
  option_map (updatePlayer (round room)) (nth_error (players room) i).
Proof.
  unfold updatedPlayers. apply nth_error_map.
Qed.

Lemma updatedPlayers_length room :
  List.length (updatedPlayers room) = List.length (players room).
Proof.
  unfold updatedPlayers. apply length_map.
Qed.

Lemma reduceWinner_total ps :
  ps <> [] -> exists a, reduceWinner ps = Ok a.
Proof.
  destruct ps as [|first rest]; [congruence|].
  intros _. simpl. eauto.
Qed.

(** The resolver only throws on a room without players. *)
Lemma decideWinner_total room :
  players room <> [] -> exists w, decideWinner room = Ok w.
Proof.
  intros Hne. unfold decideWinner.
  destruct (existsb _ _); [eauto|].
  destruct (existsb _ _); [eauto|].
  destruct (_ =? _)%nat; [|eauto].
  destruct (reduceWinner_total (updatedPlayers room)) as [a Ha].
  - unfold updatedPlayers. destruct (players room); [congruence|discriminate].
  - rewrite Ha. eauto.
Qed.

Lemma activateData_total room :
  players room <> [] ->
  exists w,
    activateData room =
    Ok (mkPartial (Some (updatedPlayers room)) (Some (resultRound (round room)))
          (Some (updatedChairs room)) (Some w)) /\
    decideWinner room = Ok w.
Proof.
  intros Hne. destruct (decideWinner_total room Hne) as [w Hw].
  exists w. unfold activateData. rewrite Hw. auto.
Qed.

Lemma activateData_inv room data :
  activateData room = Ok data ->
  exists w,
    decideWinner room = Ok w /\
    data = mkPartial (Some (updatedPlayers room)) (Some (resultRound (round room)))
             (Some (updatedChairs room)) (Some w).
Proof.
  unfold activateData. destruct (decideWinner room) as [w|]; [|discriminate].
  intros [= <-]. eauto.
Qed.

Lemma nth_error_nonempty {A} (l : list A) i x :
  nth_error l i = Some x -> l <> [].
Proof.
  destruct l; [destruct i; discriminate|discriminate].
Qed.

(** ** C1: the attacker's statistics *)

(** C1, refuted as stated: with [seatedChair = electricChair = 0] and the
    attacker at 0 points the resolver makes the attacker's point increase by
    [seatedChair] and the attacker's [shockedCount] increase by 1 at once,
    against "exactly one, never both". *)
Lemma C1_both_hold_at_chair_zero :
  exists data ps p u,
    seatedChair (round roomChairZero) = Some 0 /\
    nth_error (players roomChairZero) 0 = Some p /\
    id p = attackerId (round roomChairZero) /\
    activateData roomChairZero = Ok data /\
    p_players data = Some ps /\
    nth_error ps 0 = Some u /\
    point u = point p + 0 /\
    shockedCount u = shockedCount p + 1.
Proof.
  do 4 eexists. repeat split; reflexivity.
Qed.

(** C1, amended: for a room whose [seatedChair] is the number [s] and any
    player [p] of the room whose id is the round's [attackerId], the resolver
    returns, and the player [u] it puts at [p]'s position satisfies: if
    [electricChair] equals [seatedChair] then [u]'s point is 0 and [u]'s
    [shockedCount] is [p]'s plus 1; if they differ then [u]'s point is [p]'s
    plus [s] and the [shockedCount] is unchanged; and, as soon as
    [point p + s] is not 0, exactly one of "point increased by [s]" and
    "[shockedCount] increased by 1" holds. *)
Theorem C1_attacker_stats room s i p :
  seatedChair (round room) = Some s ->
  nth_error (players room) i = Some p ->
  id p = attackerId (round room) ->
  exists data ps u,
    activateData room = Ok data /\
    p_players data = Some ps /\
    nth_error ps i = Some u /\
    (electricChair (round room) = Some s ->
       point u = 0 /\ shockedCount u = shockedCount p + 1) /\
    (electricChair (round room) <> Some s ->
       point u = point p + s /\ shockedCount u = shockedCount p) /\
    (point p + s <> 0 ->
       (point u = point p + s /\ shockedCount u <> shockedCount p + 1) \/
       (point u <> point p + s /\ shockedCount u = shockedCount p + 1)).
Proof.
  intros Hs Hp Hid.
  destruct (activateData_total room (nth_error_nonempty _ _ _ Hp)) as [w [Hd _]].
  exists (mkPartial (Some (updatedPlayers room)) (Some (resultRound (round room)))
            (Some (updatedChairs room)) (Some w)).
  exists (updatedPlayers room), (updatePlayer (round room) p).
  split; [exact Hd|]. split; [reflexivity|].
  split; [rewrite updatedPlayers_nth, Hp; reflexivity|].
  unfold updatePlayer. rewrite Hid, String.eqb_refl.
  unfold isShocked, seatedOrZero. rewrite Hs. simpl.
  destruct (chair_eqb (electricChair (round room)) (Some s)) eqn:E.
  - apply chair_eqb_eq in E. repeat split; try congruence.
    intros Hnz. right. split; [lia|reflexivity].
  - apply chair_eqb_neq in E. repeat split; try congruence.
    intros _. left. split; [reflexivity|lia].
Qed.

Lemma C1_attacker_stats_witness :
  exists data ps u,
    activateData (sampleRoom [samplePlayer "p1" 5 0; samplePlayer "p2" 0 0]
                    (sampleRound "p1" (Some 7) (Some 3)) [3; 7]) = Ok data /\
    p_players data = Some ps /\
    nth_error ps 0 = Some u /\
    (Some 7 = Some 3 -> point u = 0 /\ shockedCount u = 0 + 1) /\
    (Some 7 <> Some 3 -> point u = 5 + 3 /\ shockedCount u = 0) /\
    (5 + 3 <> 0 ->
       (point u = 5 + 3 /\ shockedCount u <> 0 + 1) \/
       (point u <> 5 + 3 /\ shockedCount u = 0 + 1)).
Proof.
  apply (C1_attacker_stats
           (sampleRoom [samplePlayer "p1" 5 0; samplePlayer "p2" 0 0]
              (sampleRound "p1" (Some 7) (Some 3)) [3; 7])
           3 0%nat (samplePlayer "p1" 5 0)); reflexivity.
Defined.

(** ** C2: the priority order of the winner determination *)

Lemma updatePlayer_id r p : id (updatePlayer r p) = id p.
Proof.
  unfold updatePlayer. destruct (id p =? attackerId r)%string; reflexivity.
Qed.

Lemma updatePlayer_other r p :
  id p <> attackerId r -> updatePlayer r p = p.
Proof.
  intros Hne. unfold updatePlayer.
  destruct (String.eqb_spec (id p) (attackerId r)); [contradiction|reflexivity].
Qed.

Lemma In_updatedPlayers room u :
  In u (updatedPlayers room) <->
  exists p, In p (players room) /\ u = updatePlayer (round room) p.
Proof.
  unfold updatedPlayers. rewrite in_map_iff.
  split; intros [p [H1 H2]]; exists p; auto.
Qed.

Lemma find_exists {A} (f : A -> bool) l x :
  In x l -> f x = true -> exists y, find f l = Some y.
Proof.
  intros Hx Hfx. destruct (find f l) as [y|] eqn:E; [eauto|].
  rewrite (find_none f l E x Hx) in Hfx. discriminate.
Qed.

(** The defender the code picks is a player of the room other than the
    attacker, and the stat update leaves that player as it was. *)
Lemma defenderId_other room d :
  In d (players room) -> id d <> attackerId (round room) ->
  exists d',
    defenderId room = WId (id d') /\
    In d' (players room) /\ In d' (updatedPlayers room) /\
    id d' <> attackerId (round room).
Proof.
  intros Hd Hne. unfold defenderId.
  destruct (find_exists (fun player => negb (id player =? attackerId (round room))%string)
              (players room) d Hd) as [d' Hf].
  - destruct (String.eqb_spec (id d) (attackerId (round room))); [contradiction|reflexivity].
  - rewrite Hf. apply find_some in Hf. destruct Hf as [Hin Hb].
    assert (Hid : id d' <> attackerId (round room)).
    { destruct (String.eqb_spec (id d') (attackerId (round room))); [discriminate|assumption]. }
    exists d'. repeat split; auto.
    apply In_updatedPlayers. exists d'. split; [assumption|].
    symmetry. now apply updatePlayer_other.
Qed.

(** C2, refuted as stated: the score test succeeds because of "p1" (40
    points), yet [winnerId] is set to "p2", the attacker, whose updated point
    is 1; the winner is not "the one with point >= 40". *)
Lemma C2_winner_is_not_the_scorer :
  exists data ps,
    activateData roomDefenderAtForty = Ok data /\
    p_players data = Some ps /\
    existsb (fun player => 40 <=? point player) ps = true /\
    p_winnerId data = Some (WId "p2") /\
    (forall u, In u ps -> id u = "p2" -> point u = 1) /\
    (forall u, In u ps -> 40 <= point u -> id u = "p1").
Proof.
  do 2 eexists. repeat split; try reflexivity.
  - intros u [<-|[<-|[]]]; simpl; [discriminate|reflexivity].
  - intros u [<-|[<-|[]]] H; [reflexivity|].
    cbv in H. now elim H.
Qed.

(** C2, amended: on a room with at least one player the resolver returns and
    the [winnerId] [w] it writes follows this priority order.  (a) If some
    updated player has point >= 40, [w] is the round's [attackerId]; that is
    a player with point >= 40 whenever every player other than the attacker
    is below 40.  (b) Otherwise, if some updated player has [shockedCount]
    equal to 3, [w] is [defenderId], the id of the first player whose id
    differs from [attackerId]; whenever the room has such a player and no
    player other than the attacker has [shockedCount] 3, that is a player
    other than the attacker whose [shockedCount] is not 3.  (c) Otherwise, if
    exactly one chair remains after the update, [w] is the id produced by the
    point comparison.  (d) Otherwise [w] is null. *)
Theorem C2_winner_priority room :
  players room <> [] ->
  let ups := updatedPlayers room in
  let score := exists u, In u ups /\ 40 <= point u in
  let elim := exists u, In u ups /\ shockedCount u = 3 in
  exists data w,
    activateData room = Ok data /\
    p_winnerId data = Some w /\
    (score -> w = WId (attackerId (round room))) /\
    (score ->
     (forall p, In p (players room) -> id p <> attackerId (round room) -> point p < 40) ->
     exists u, In u ups /\ 40 <= point u /\ w = WId (id u)) /\
    (~ score -> elim -> w = defenderId room) /\
    (~ score -> elim ->
     (exists d, In d (players room) /\ id d <> attackerId (round room)) ->
     (forall p, In p (players room) -> id p <> attackerId (round room) ->
                shockedCount p <> 3) ->
     exists d, In d ups /\ id d <> attackerId (round room) /\
               shockedCount d <> 3 /\ w = WId (id d)) /\
    (~ score -> ~ elim -> List.length (updatedChairs room) = 1%nat ->
     exists a, reduceWinner ups = Ok a /\ w = WId (acc_id a)) /\
    (~ score -> ~ elim -> List.length (updatedChairs room) <> 1%nat -> w = WNull).
Proof.
  intros Hne ups score elim.
  destruct (activateData_total room Hne) as [w [Hd Hw]].
  eexists. exists w. split; [exact Hd|]. split; [reflexivity|].
  assert (Hscore : existsb (fun player => 40 <=? point player) ups = true <-> score).
  { rewrite existsb_exists. unfold score.
    split; intros [u [Hu Hp]]; exists u; split; auto; now apply Z.leb_le. }
  assert (Helim : existsb (fun player => shockedCount player =? 3) ups = true <-> elim).
  { rewrite existsb_exists. unfold elim.
    split; intros [u [Hu Hp]]; exists u; split; auto; now apply Z.eqb_eq. }
  unfold decideWinner in Hw. fold ups in Hw.
  destruct (existsb (fun player => 40 <=? point player) ups) eqn:E1.
  - assert (Hs : score) by now apply Hscore.
    injection Hw as <-.
    split; [reflexivity|]. split.
    + intros _ Hlow. destruct Hs as [u [Hu Hp]].
      apply In_updatedPlayers in Hu. destruct Hu as [p [Hin ->]].
      destruct (string_dec (id p) (attackerId (round room))) as [Heq|Hneq].
      * exists (updatePlayer (round room) p). split.
        -- apply In_updatedPlayers. eauto.
        -- split; [assumption|]. now rewrite updatePlayer_id, Heq.
      * rewrite (updatePlayer_other _ _ Hneq) in Hp.
        specialize (Hlow p Hin Hneq). lia.
    + repeat split; intros Hns; contradiction.
  - assert (Hns : ~ score) by (intros Hs; apply Hscore in Hs; congruence).
    split; [intros; contradiction|]. split; [intros; contradiction|].
    destruct (existsb (fun player => shockedCount player =? 3) ups) eqn:E2.
    + assert (He : elim) by now apply Helim.
      injection Hw as <-.
      split; [reflexivity|]. split.
      * intros _ _ [d [Hd1 Hd2]] Hno.
        destruct (defenderId_other room d Hd1 Hd2) as [d' [Hdef [Hin [Hin' Hid]]]].
        exists d'. repeat split; auto.
      * split; intros _ Hne'; contradiction.
    + assert (Hne' : ~ elim) by (intros He; apply Helim in He; congruence).
      split; [intros; contradiction|]. split; [intros; contradiction|].
      destruct (List.length (updatedChairs room) =? 1)%nat eqn:E3.
      * apply Nat.eqb_eq in E3.
        destruct (reduceWinner ups) as [a|] eqn:Er; [|discriminate].
        injection Hw as <-. split; [eauto|]. intros; congruence.
      * apply Nat.eqb_neq in E3. injection Hw as <-.
        split; [intros; contradiction|reflexivity].
Qed.

Lemma C2_winner_priority_witness :
  let room := sampleRoom [samplePlayer "p1" 38 0; samplePlayer "p2" 0 0]
                (sampleRound "p1" (Some 5) (Some 2)) [2; 5; 7] in
  exists data, activateData room = Ok data /\ p_winnerId data = Some (WId "p1").
Proof.
  intros room.
  destruct (C2_winner_priority room) as [data [w [Hd [Hw [Ha _]]]]].
  - discriminate.
  - exists data. split; [exact Hd|]. rewrite Hw. f_equal. apply Ha.
    exists (samplePlayer "p1" 40 0). split; [left; reflexivity|simpl; lia].
Defined.

(** ** C3: chair exhaustion *)

(** C3, refuted as stated: in scenario C the safe seat empties
    [remainingChairs], both updated points are 20, no score or elimination
    victory applies, and [winnerId] is [null], not the "draw" sentinel: the
    exhaustion test asks for exactly one remaining chair. *)
Lemma C3_scenario_C_is_not_a_draw :
  exists data ps,
    remainingChairs roomScenarioC = [4] /\
    activateData roomScenarioC = Ok data /\
    p_remainingChairs data = Some [] /\
    p_players data = Some ps /\
    map point ps = [20; 20] /\
    map shockedCount ps = [0; 0] /\
    p_winnerId data = Some WNull /\
    p_winnerId data <> Some (WId "draw").
Proof.
  do 2 eexists. repeat split; try reflexivity. discriminate.
Qed.

(** C3, amended: for a room of two players whose updated records [u1] and
    [u2] are both below 40 points and have a [shockedCount] other than 3,
    the resolver returns; when the update leaves exactly one chair in
    [remainingChairs] (for instance 4 removed from {4, 7}) the strictly
    higher scorer's id is written to [winnerId] and an exact tie writes the
    "draw" sentinel; when it leaves any other number of chairs (for instance
    4 removed from {4}, which leaves none) [winnerId] is null. *)
Theorem C3_chair_exhaustion room u1 u2 :
  updatedPlayers room = [u1; u2] ->
  point u1 < 40 -> point u2 < 40 ->
  shockedCount u1 <> 3 -> shockedCount u2 <> 3 ->
  exists data w,
    activateData room = Ok data /\
    p_winnerId data = Some w /\
    (List.length (updatedChairs room) = 1%nat ->
       (point u1 < point u2 -> w = WId (id u2)) /\
       (point u2 < point u1 -> w = WId (id u1)) /\
       (point u1 = point u2 -> w = WId "draw")) /\
    (List.length (updatedChairs room) <> 1%nat -> w = WNull).
Proof.
  intros Hups H1 H2 H3 H4.
  unfold activateData, decideWinner. rewrite Hups. simpl.
  destruct (Z.leb_spec 40 (point u1)); [lia|].
  destruct (Z.leb_spec 40 (point u2)); [lia|].
  destruct (Z.eqb_spec (shockedCount u1) 3); [contradiction|].
  destruct (Z.eqb_spec (shockedCount u2) 3); [contradiction|].
  simpl.
  destruct (Nat.eqb_spec (List.length (updatedChairs room)) 1) as [E|E].
  - unfold pickWinner. simpl.
    destruct (Z.ltb_spec (point u1) (point u2)).
    + do 2 eexists. split; [reflexivity|]. split; [reflexivity|].
      split; [|contradiction]. intros _. repeat split; intros; try lia; reflexivity.
    + destruct (Z.eqb_spec (point u2) (point u1)).
      * do 2 eexists. split; [reflexivity|]. split; [reflexivity|].
        split; [|contradiction]. intros _. repeat split; intros; try lia; reflexivity.
      * do 2 eexists. split; [reflexivity|]. split; [reflexivity|].
        split; [|contradiction]. intros _. repeat split; intros; try lia; reflexivity.
  - do 2 eexists. split; [reflexivity|]. split; [reflexivity|].
    split; [contradiction|reflexivity].
Qed.

Lemma C3_chair_exhaustion_witness :
  let room := sampleRoom [samplePlayer "p1" 20 0; samplePlayer "p2" 16 0]
                (sampleRound "p2" (Some 7) (Some 4)) [4; 7] in
  exists data,
    activateData room = Ok data /\
    p_remainingChairs data = Some [7] /\
    p_winnerId data = Some (WId "draw").
Proof.
  intros room.
  destruct (C3_chair_exhaustion room (samplePlayer "p1" 20 0) (samplePlayer "p2" 20 0))
    as [data [w [Hd [Hw [H1 _]]]]];
    [reflexivity | simpl; lia | simpl; lia | simpl; lia | simpl; lia |].
  exists data. split; [exact Hd|].
  destruct (H1 eq_refl) as [_ [_ Heq]].
  rewrite Hw, (Heq eq_refl).
  apply activateData_inv in Hd. destruct Hd as [w' [_ ->]].
  split; reflexivity.
Defined.

(** ** C4: the resolver has no guard on the phase or on the seat *)

Lemma updatePlayer_no_seat r p :
  seatedChair r = None -> electricChair r <> None -> updatePlayer r p = p.
Proof.
  intros Hs He. unfold updatePlayer, isShocked, seatedOrZero. rewrite Hs.
  destruct (electricChair r) as [e|]; [simpl|congruence].
  destruct (id p =? attackerId r)%string; [|reflexivity].
  destruct p as [i n rd pt sc]. simpl. now rewrite Z.add_0_r.
Qed.

(** C4, refuted as stated: on a round in phase [select] whose [seatedChair]
    is null the resolver does not fail; it computes the data to persist, with
    the round moved to phase [result] and the status [safe]. *)
Lemma C4_resolver_accepts_any_round :
  phase (round roomNoSeat) = phase_select /\
  seatedChair (round roomNoSeat) = None /\
  exists data r,
    activateData roomNoSeat = Ok data /\
    p_round data = Some r /\
    phase r = phase_result /\
    status (result r) = Some safe.
Proof.
  repeat split. do 2 eexists. repeat split; reflexivity.
Qed.

(** C4, amended: the resolver inspects neither [round.phase] nor the
    nullness of [seatedChair] and raises no [InvalidStateError]: on every
    room with at least one player, whatever the phase and the seat, it
    computes the data to persist, with the round in phase [result]; when
    [seatedChair] is null, [remainingChairs] is written back unchanged and,
    if [electricChair] is a number, the status is [safe] and every player is
    written back unchanged. *)
Theorem C4_resolver_has_no_state_guard room :
  players room <> [] ->
  exists data r,
    activateData room = Ok data /\
    p_round data = Some r /\
    phase r = phase_result /\
    (seatedChair (round room) = None ->
       p_remainingChairs data = Some (remainingChairs room) /\
       (electricChair (round room) <> None ->
          status (result r) = Some safe /\
          p_players data = Some (players room))).
Proof.
  intros Hne. destruct (activateData_total room Hne) as [w [Hd _]].
  do 2 eexists. split; [exact Hd|]. split; [reflexivity|]. split; [reflexivity|].
  intros Hs. simpl. split.
  - unfold updatedChairs, isShocked. rewrite Hs.
    destruct (chair_eqb (electricChair (round room)) None); [reflexivity|].
    f_equal. apply forallb_filter_id. apply forallb_forall. reflexivity.
  - intros He. unfold isShocked. rewrite Hs.
    destruct (electricChair (round room)) as [e|] eqn:Ee; [simpl|congruence].
    split; [reflexivity|]. f_equal. unfold updatedPlayers.
    rewrite <- (map_id (players room)) at 2. apply map_ext.
    intros p. apply updatePlayer_no_seat; [assumption|].
    rewrite Ee. discriminate.
Qed.

Lemma C4_resolver_has_no_state_guard_witness :
  exists data r,
    activateData roomNoSeat = Ok data /\
    p_round data = Some r /\
    phase r = phase_result /\
    (seatedChair (round roomNoSeat) = None ->
       p_remainingChairs data = Some (remainingChairs roomNoSeat) /\
       (electricChair (round roomNoSeat) <> None ->
          status (result r) = Some safe /\
          p_players data = Some (players roomNoSeat))).
Proof.
  apply (C4_resolver_has_no_state_guard roomNoSeat). discriminate.
Defined.

(** ** C5: the round built on the second confirmation *)

(** With two entries, [confirmedIds[0]] is defined: the next attacker is one
    of the two confirmed ids. *)
Lemma nextAttackerId_In r ids :
  List.length ids = 2%nat -> In (nextAttackerId r ids) ids.
Proof.
  intros Hlen. unfold nextAttackerId.
  destruct (find _ ids) as [i|] eqn:E.
  - apply find_some in E. tauto.
  - destruct ids as [|a l]; [discriminate|]. simpl. auto.
Qed.

(** C5: when the resolver function of [changeTurnAction] receives the two
    confirmed ids [a] and [b], it returns an update that supplies [round],
    and nothing else, and the round [next] it supplies has: [attackerId] the
    first of [a], [b] that differs from the current [attackerId], and [a]
    when both equal it; [turn] [bottom] and the same [count] after a [top]
    round, [turn] [top] and [count + 1] after a [bottom] round; and [phase],
    [electricChair], [seatedChair] and [result] (status, [confirmedIds],
    [shownResult]) those of the fresh round [plainRoundData.round]. *)
Theorem C5_next_round plainRound r a b :
  exists next,
    changeTurnResolver plainRound r [a; b]
      = Some (mkPartial None (Some next) None None) /\
    (a <> attackerId r -> attackerId next = a) /\
    (a = attackerId r -> b <> attackerId r -> attackerId next = b) /\
    (a = attackerId r -> b = attackerId r -> attackerId next = a) /\
    (turn r = top -> turn next = bottom /\ count next = count r) /\
    (turn r = bottom -> turn next = top /\ count next = count r + 1) /\
    phase next = phase plainRound /\
    electricChair next = electricChair plainRound /\
    seatedChair next = seatedChair plainRound /\
    result next = result plainRound.
Proof.
  assert (Hnext :
    (a <> attackerId r -> nextAttackerId r [a; b] = a) /\
    (a = attackerId r -> b <> attackerId r -> nextAttackerId r [a; b] = b) /\
    (a = attackerId r -> b = attackerId r -> nextAttackerId r [a; b] = a)).
  { unfold nextAttackerId. simpl.
    destruct (String.eqb_spec a (attackerId r)) as [Ha|Ha];
      destruct (String.eqb_spec b (attackerId r)) as [Hb|Hb]; simpl;
      repeat split; intros; congruence. }
  destruct Hnext as [N1 [N2 N3]].
  unfold changeTurnResolver. simpl.
  destruct (turn r); eexists; (split; [reflexivity|]); simpl;
    repeat split; auto; discriminate.
Qed.

(** Scenario D of the specification, with the fresh round of the
    specification: a [bottom] round of count 3 attacked by "p1" and confirmed
    by "p1" then "p2" is followed by a [top] round of count 4 attacked by
    "p2", in phase [select], with no confirmation. *)
Lemma C5_next_round_scenario_D :
  exists next,
    changeTurnResolver plainRoundData_round
      (mkRound "p1" bottom 3 phase_result (Some 3) (Some 5)
         (mkRoundResult (Some safe) ["p1"] true))
      ["p1"; "p2"] = Some (mkPartial None (Some next) None None) /\
    attackerId next = "p2" /\ turn next = top /\ count next = 4 /\
    phase next = phase_select /\ confirmedIds (result next) = [].
Proof.
  destruct (C5_next_round plainRoundData_round
              (mkRound "p1" bottom 3 phase_result (Some 3) (Some 5)
                 (mkRoundResult (Some safe) ["p1"] true)) "p1" "p2")
    as [next [H [_ [Hb [_ [_ [Ht [Hp [_ [_ Hr]]]]]]]]]].
  exists next. split; [exact H|].
  destruct (Ht eq_refl) as [Ht1 Ht2].
  repeat split.
  - apply Hb; [reflexivity|discriminate].
  - exact Ht1.
  - exact Ht2.
  - exact Hp.
  - now rewrite Hr.
Defined.

(** ** C6: confirmation at saturation *)

Lemma changeTurnResolver_saturated plainRound r ids :
  (3 <= List.length ids)%nat -> changeTurnResolver plainRound r ids = None.
Proof.
  intros Hlen. unfold changeTurnResolver.
  destruct (Nat.eqb_spec (List.length ids) 1); [lia|].
  destruct (Nat.eqb_spec (List.length ids) 2); [lia|reflexivity].
Qed.

(** C6: when the stored round already has two confirmed ids, the sequence a
    further confirmation hands to the resolver function has three entries,
    the resolver function returns null, the call writes nothing (for a player
    of the room on a round in phase [result] it ends in [NoWrite]) and the
    stored room is unchanged. *)
Theorem C6_saturated_confirmation plainRound room userId :
  List.length (confirmedIds (result (round room))) = 2%nat ->
  changeTurnResolver plainRound (round room)
    (confirmedIds (result (round room)) ++ [userId]) = None /\
  (forall room', changeTurnAction plainRound room userId <> Written room') /\
  (existsb (fun player => (id player =? userId)%string) (players room) = true ->
   phase (round room) = phase_result ->
   changeTurnAction plainRound room userId = NoWrite) /\
  storedAfter room (changeTurnAction plainRound room userId) = room.
Proof.
  intros Hlen.
  assert (Hnull : changeTurnResolver plainRound (round room)
                    (confirmedIds (result (round room)) ++ [userId]) = None).
  { apply changeTurnResolver_saturated. rewrite length_app, Hlen. simpl. lia. }
  split; [exact Hnull|].
  unfold changeTurnAction, confirmTurnResult. rewrite Hnull.
  destruct (existsb _ (players room)); simpl;
    destruct (phase (round room)); simpl;
    repeat split; intros; try discriminate; try reflexivity.
Qed.

Lemma C6_saturated_confirmation_witness :
  changeTurnAction plainRoundData_round roomSaturated "p1" = NoWrite /\
  storedAfter roomSaturated
    (changeTurnAction plainRoundData_round roomSaturated "p1") = roomSaturated.
Proof.
  destruct (C6_saturated_confirmation plainRoundData_round roomSaturated "p1")
    as [_ [_ [Hno Hst]]]; [reflexivity|].
  split; [apply Hno; reflexivity|exact Hst].
Defined.

(** ** C7: [winnerId] across calls *)

(** Whatever the barrier's resolver function returns supplies [round] only. *)
Lemma changeTurnResolver_round_only plainRound r ids data :
  changeTurnResolver plainRound r ids = Some data ->
  exists next, data = roundOnly next.
Proof.
  unfold changeTurnResolver.
  destruct (List.length ids =? 1)%nat; [intros [= <-]; eauto|].
  destruct (List.length ids =? 2)%nat; [|discriminate].
  destruct (turn r); intros [= <-]; eauto.
Qed.

Lemma changeTurnAction_frame plainRound room userId :
  let room' := storedAfter room (changeTurnAction plainRound room userId) in
  winnerId room' = winnerId room /\
  players room' = players room /\
  remainingChairs room' = remainingChairs room.
Proof.
  unfold changeTurnAction, confirmTurnResult.
  destruct (negb _); [simpl; auto|].
  destruct (phase (round room)); simpl; auto.
  destruct (changeTurnResolver _ _ _) as [data|] eqn:E; simpl; auto.
  apply changeTurnResolver_round_only in E. destruct E as [next ->].
  simpl. auto.
Qed.

(** C7, refuted as stated: from an ongoing room, a first resolver
    application sets [winnerId] to "p2" (third shock of "p1"), and a second
    application on the stored room sets it back to null (the counter is now
    4, no test succeeds). *)
Lemma C7_winner_reverts_to_null :
  winnerId roomTwoShocks = WNull /\
  winnerId (applyCalls plainRoundData_round roomTwoShocks [CallActivate])
    = WId "p2" /\
  winnerId (applyCalls plainRoundData_round roomTwoShocks
              [CallActivate; CallActivate]) = WNull.
Proof.
  repeat split; reflexivity.
Qed.

(** The same happens across the barrier, with the fresh round of the
    specification: after both confirmations the next activation compares two
    null chairs, shocks the new attacker "p2" and, "p1" still being at three
    shocks, hands the win to "p1". *)
Remark winner_changes_across_barrier :
  let calls := [CallActivate; CallConfirm "p1"; CallConfirm "p2"] in
  winnerId (applyCalls plainRoundData_round roomTwoShocks calls) = WId "p2" /\
  winnerId (applyCalls plainRoundData_round roomTwoShocks
              (calls ++ [CallActivate])) = WId "p1".
Proof.
  split; reflexivity.
Qed.

(** C7, amended: [winnerId] is written by the resolver only, which computes
    it afresh from the players, the round and the remaining chairs without
    reading the stored [winnerId], so a later resolver application may change
    or clear it.  The barrier's resolver function only ever supplies [round],
    and over every sequence of confirmation calls [winnerId] keeps its
    value: once set, it stays as long as no resolver is applied again. *)
Theorem C7_winner_kept_by_barrier plainRound room :
  (forall w,
     activateData (mkGameRoom (roomId room) (players room) (round room)
                     (remainingChairs room) w) = activateData room) /\
  (forall r ids data,
     changeTurnResolver plainRound r ids = Some data -> p_winnerId data = None) /\
  (forall cs,
     forallb isConfirm cs = true ->
     winnerId (applyCalls plainRound room cs) = winnerId room).
Proof.
  split; [reflexivity|]. split.
  - intros r ids data H. apply changeTurnResolver_round_only in H.
    destruct H as [next ->]. reflexivity.
  - intros cs. revert room. induction cs as [|c cs IH]; intros room Hall.
    + reflexivity.
    + simpl in Hall. apply andb_prop in Hall. destruct Hall as [Hc Hcs].
      destruct c as [|userId]; [discriminate|].
      unfold applyCalls in *. simpl. rewrite (IH _ Hcs).
      apply (changeTurnAction_frame plainRound room userId).
Qed.

Lemma C7_winner_kept_by_barrier_witness :
  let room := applyCalls plainRoundData_round roomTwoShocks [CallActivate] in
  winnerId room = WId "p2" /\
  winnerId (applyCalls plainRoundData_round room
              [CallConfirm "p1"; CallConfirm "p2"]) = WId "p2".
Proof.
  intros room. split; [reflexivity|].
  destruct (C7_winner_kept_by_barrier plainRoundData_round room) as [_ [_ H]].
  rewrite (H [CallConfirm "p1"; CallConfirm "p2"] eq_refl). reflexivity.
Defined.

(** ** C8: monotonicity of the players' statistics *)

(** C8, refuted as stated: a shocked round takes the attacker's point from
    10 down to 0. *)
Lemma C8_point_drops_on_shock :
  exists data ps p u,
    nth_error (players roomShockAtTen) 0 = Some p /\
    activateData roomShockAtTen = Ok data /\
    p_players data = Some ps /\
    nth_error ps 0 = Some u /\
    point p = 10 /\ point u = 0 /\ point u < point p.
Proof.
  do 4 eexists. repeat split; reflexivity.
Qed.

Lemma updatePlayer_shockedCount r p :
  shockedCount p <= shockedCount (updatePlayer r p).
Proof.
  unfold updatePlayer.
  destruct (id p =? attackerId r)%string; [|lia].
  destruct (isShocked r); simpl; lia.
Qed.

Lemma updatePlayer_point_safe r p :
  isShocked r = false -> 0 <= seatedOrZero r ->
  point p <= point (updatePlayer r p).
Proof.
  intros Hs Hseat. unfold updatePlayer. rewrite Hs.
  destruct (id p =? attackerId r)%string; simpl; lia.
Qed.

Lemma updatePlayer_point_shocked r p :
  isShocked r = true -> id p = attackerId r -> point (updatePlayer r p) = 0.
Proof.
  intros Hs Hid. unfold updatePlayer. rewrite Hs, Hid, String.eqb_refl.
  reflexivity.
Qed.

(** C8, amended: at every resolver application, for the player [p] at any
    position of the room, the player [u] written at that position has
    [shockedCount p <= shockedCount u]; [point p <= point u] if the round is
    safe and the seated chair is null or non-negative; and [point u = 0] if
    the round is shocked and [p] is the attacker: the point is not monotone,
    a shock resets it. *)
Theorem C8_stats_per_application room i p :
  nth_error (players room) i = Some p ->
  exists data ps u,
    activateData room = Ok data /\
    p_players data = Some ps /\
    nth_error ps i = Some u /\
    shockedCount p <= shockedCount u /\
    (isShocked (round room) = false -> 0 <= seatedOrZero (round room) ->
       point p <= point u) /\
    (isShocked (round room) = true -> id p = attackerId (round room) ->
       point u = 0).
Proof.
  intros Hp.
  destruct (activateData_total room (nth_error_nonempty _ _ _ Hp)) as [w [Hd _]].
  do 2 eexists. exists (updatePlayer (round room) p).
  split; [exact Hd|]. split; [reflexivity|].
  split; [rewrite updatedPlayers_nth, Hp; reflexivity|].
  split; [apply updatePlayer_shockedCount|].
  split; [apply updatePlayer_point_safe|apply updatePlayer_point_shocked].
Qed.

Lemma C8_stats_per_application_witness :
  exists data ps u,
    activateData roomShockAtTen = Ok data /\
    p_players data = Some ps /\
    nth_error ps 0 = Some u /\
    0 <= shockedCount u /\
    point u = 0.
Proof.
  destruct (C8_stats_per_application roomShockAtTen 0 (samplePlayer "p1" 10 0))
    as [data [ps [u [Hd [Hps [Hu [Hsc [_ Hz]]]]]]]]; [reflexivity|].
  exists data, ps, u. repeat split; auto.
Defined.

(** ** C9: the remaining chairs *)

Lemma updatedChairs_cases room :
  (isShocked (round room) = true /\ updatedChairs room = remainingChairs room) \/
  (isShocked (round room) = false /\ seatedChair (round room) = None /\
   updatedChairs room = remainingChairs room) \/
  (exists s, isShocked (round room) = false /\ seatedChair (round room) = Some s /\
             updatedChairs room = removeChair s (remainingChairs room)).
Proof.
  unfold updatedChairs. destruct (isShocked (round room)); [auto|].
  right. destruct (seatedChair (round room)) as [s|].
  - right. exists s. auto.
  - left. repeat split. apply forallb_filter_id. apply forallb_forall. reflexivity.
Qed.

(** Every occurrence of the seated chair goes, nothing else does. *)
Lemma removeChair_length s cs :
  (List.length (removeChair s cs) + count_occ Z.eq_dec cs s)%nat = List.length cs.
Proof.
  unfold removeChair. induction cs as [|c cs IH]; [reflexivity|].
  simpl in IH |- *. destruct (Z.eq_dec c s) as [->|Hne].
  - rewrite Z.eqb_refl. simpl. lia.
  - destruct (Z.eqb_spec c s); [contradiction|]. simpl. lia.
Qed.

Lemma count_occ_NoDup_le s cs :
  NoDup cs -> (count_occ Z.eq_dec cs s <= 1)%nat.
Proof.
  intros Hnd. now apply (proj1 (NoDup_count_occ Z.eq_dec cs)).
Qed.

(** C9, refuted as stated: on an ongoing room with one remaining chair, a
    safe seat on that chair leaves [remainingChairs] empty while [winnerId]
    is still null. *)
Lemma C9_chairs_can_run_out :
  winnerId roomLastChair = WNull /\
  remainingChairs roomLastChair = [4] /\
  exists data,
    activateData roomLastChair = Ok data /\
    p_remainingChairs data = Some [] /\
    p_winnerId data = Some WNull.
Proof.
  repeat split. eexists. repeat split; reflexivity.
Qed.

(** C9, amended: at every resolver application on a room with at least one
    player, the list [cs'] written to [remainingChairs] is no longer than the
    stored list [cs]; it is [cs] itself on a shocked round; on a safe round
    with seated chair [s] it is [cs] without the occurrences of [s], exactly
    one element shorter when [cs] has no duplicates and contains [s].  When
    [cs] has no duplicates and at least two elements, [cs'] has at least one
    element, and at least two if the [winnerId] written is null.  The
    resolver has no lower bound of its own: from a single chair it can reach
    the empty list. *)
Theorem C9_remaining_chairs room :
  players room <> [] ->
  exists data cs' w,
    activateData room = Ok data /\
    p_remainingChairs data = Some cs' /\
    p_winnerId data = Some w /\
    (List.length cs' <= List.length (remainingChairs room))%nat /\
    (electricChair (round room) = seatedChair (round room) ->
       cs' = remainingChairs room) /\
    (forall s, electricChair (round room) <> seatedChair (round room) ->
       seatedChair (round room) = Some s ->
       cs' = removeChair s (remainingChairs room) /\
       (NoDup (remainingChairs room) -> In s (remainingChairs room) ->
          (List.length cs' + 1)%nat = List.length (remainingChairs room))) /\
    (NoDup (remainingChairs room) ->
     (2 <= List.length (remainingChairs room))%nat ->
       (1 <= List.length cs')%nat /\
       (w = WNull -> (2 <= List.length cs')%nat)).
Proof.
  intros Hne. destruct (activateData_total room Hne) as [w [Hd Hw]].
  eexists. exists (updatedChairs room), w.
  split; [exact Hd|]. split; [reflexivity|]. split; [reflexivity|].
  assert (Hlen : forall s, (List.length (removeChair s (remainingChairs room))
                              <= List.length (remainingChairs room))%nat).
  { intros s. pose proof (removeChair_length s (remainingChairs room)). lia. }
  assert (Hlow : NoDup (remainingChairs room) ->
                 (2 <= List.length (remainingChairs room))%nat ->
                 (1 <= List.length (updatedChairs room))%nat).
  { intros Hnd H2.
    destruct (updatedChairs_cases room) as [[_ ->]|[[_ [_ ->]]|[s [_ [_ ->]]]]];
      try lia.
    pose proof (removeChair_length s (remainingChairs room)).
    pose proof (count_occ_NoDup_le s _ Hnd). lia. }
  split; [|split; [|split]].
  - destruct (updatedChairs_cases room) as [[_ ->]|[[_ [_ ->]]|[s [_ [_ ->]]]]];
      auto.
  - intros Heq. apply chair_eqb_eq in Heq. unfold updatedChairs, isShocked.
    now rewrite Heq.
  - intros s Hneq Hs. apply chair_eqb_neq in Hneq.
    unfold updatedChairs, isShocked. rewrite Hneq, Hs. fold (removeChair s (remainingChairs room)).
    split; [reflexivity|]. intros Hnd Hin.
    pose proof (removeChair_length s (remainingChairs room)) as Hc.
    rewrite (proj1 (NoDup_count_occ' Z.eq_dec _) Hnd s Hin) in Hc. exact Hc.
  - intros Hnd H2. split; [auto|]. intros ->.
    specialize (Hlow Hnd H2).
    destruct (Nat.eq_dec (List.length (updatedChairs room)) 1) as [E|E]; [|lia].
    exfalso. unfold decideWinner in Hw.
    destruct (existsb _ _); [discriminate|].
    destruct (existsb _ _).
    + unfold defenderId in Hw. destruct (find _ _); discriminate.
    + apply Nat.eqb_eq in E. rewrite E in Hw.
      destruct (reduceWinner _); discriminate.
Qed.

Lemma C9_remaining_chairs_witness :
  let room := sampleRoom [samplePlayer "p1" 5 0; samplePlayer "p2" 0 0]
                (sampleRound "p1" (Some 7) (Some 3)) [3; 7; 9] in
  exists data cs',
    activateData room = Ok data /\
    p_remainingChairs data = Some cs' /\
    cs' = [7; 9] /\
    (List.length cs' + 1)%nat = List.length (remainingChairs room).
Proof.
  intros room.
  destruct (C9_remaining_chairs room) as [data [cs' [w [Hd [Hcs [_ [_ [_ [Hsafe _]]]]]]]]];
    [discriminate|].
  destruct (Hsafe 3) as [Heq Hlen]; [discriminate|reflexivity|].
  exists data, cs'. split; [exact Hd|]. split; [exact Hcs|].
  split; [rewrite Heq; reflexivity|].
  apply Hlen.
  - repeat constructor; simpl; intuition discriminate.
  - left; reflexivity.
Defined.

(** ** C10: what the resolver leaves alone *)

(** C10: the resolver returns on every room with at least one player, and
    whenever it returns, each player whose id is not the round's
    [attackerId] is written back unchanged at the same position (the list of
    players keeps its length), and the round written differs from the stored
    round only in [phase], which is [result], and in [result.status], which
    is [shocked] when [electricChair] equals [seatedChair] and [safe]
    otherwise: [attackerId], [turn], [count], [electricChair], [seatedChair],
    [result.confirmedIds] and [result.shownResult] are carried over. *)
Theorem C10_resolver_frame room :
  (players room <> [] -> exists data, activateData room = Ok data) /\
  (forall data,
     activateData room = Ok data ->
     exists ps r,
       p_players data = Some ps /\
       p_round data = Some r /\
       List.length ps = List.length (players room) /\
       (forall i p, nth_error (players room) i = Some p ->
                    id p <> attackerId (round room) ->
                    nth_error ps i = Some p) /\
       r = mkRound (attackerId (round room)) (turn (round room))
             (count (round room)) phase_result
             (electricChair (round room)) (seatedChair (round room))
             (mkRoundResult (status (result r))
                (confirmedIds (result (round room)))
                (shownResult (result (round room)))) /\
       (electricChair (round room) = seatedChair (round room) ->
          status (result r) = Some shocked) /\
       (electricChair (round room) <> seatedChair (round room) ->
          status (result r) = Some safe)).
Proof.
  split.
  - intros Hne. destruct (activateData_total room Hne) as [w [Hd _]]. eauto.
  - intros data Hd. apply activateData_inv in Hd. destruct Hd as [w [_ ->]].
    do 2 eexists.
    split; [reflexivity|]. split; [reflexivity|].
    split; [apply updatedPlayers_length|].
    split; [|split; [reflexivity|]].
    + intros i p Hp Hid. rewrite updatedPlayers_nth, Hp. simpl.
      now rewrite updatePlayer_other.
    + simpl. unfold isShocked. split; intros H.
      * apply chair_eqb_eq in H. now rewrite H.
      * apply chair_eqb_neq in H. now rewrite H.
Qed.

Lemma C10_resolver_frame_witness :
  let room := sampleRoom [samplePlayer "p1" 5 0; samplePlayer "p2" 8 1]
                (sampleRound "p1" (Some 7) (Some 3)) [3; 7; 9] in
  exists data ps r,
    activateData room = Ok data /\
    p_players data = Some ps /\
    p_round data = Some r /\
    nth_error ps 1 = Some (samplePlayer "p2" 8 1) /\
    status (result r) = Some safe.
Proof.
  intros room.
  destruct (C10_resolver_frame room) as [Htotal Hframe].
  destruct Htotal as [data Hd]; [discriminate|].
  destruct (Hframe data Hd) as [ps [r [Hps [Hr [_ [Hother [_ [_ Hsafe]]]]]]]].
  exists data, ps, r. repeat split; auto.
  - apply Hother; [reflexivity|discriminate].
  - apply Hsafe. discriminate.
Defined.

(** * Further properties of the resolver *)

Lemma pickWinner_outcome done acc c :
  reduceOutcome done acc -> reduceOutcome (done ++ [c]) (pickWinner acc c).
Proof.
  intros [[l1 [p [l2 [-> [-> [H1 H2]]]]]]|[-> [l1 [p [l2 [q [l3 [-> [Hpq [H1 H2]]]]]]]]]].
  - unfold pickWinner. simpl.
    destruct (Z.ltb_spec (point p) (point c)) as [Hlt|Hge].
    + left. exists (l1 ++ p :: l2)%list, c, []. repeat split.
      * apply Forall_app. split.
        -- eapply Forall_impl; [|exact H1]. simpl. intros; lia.
        -- constructor; [exact Hlt|].
           eapply Forall_impl; [|exact H2]. simpl. intros; lia.
      * constructor.
    + destruct (Z.eqb_spec (point c) (point p)) as [Heq|Hne].
      * right. split; [reflexivity|].
        exists l1, p, l2, c, []. repeat split; auto.
        now rewrite <- app_assoc.
      * left. exists l1, p, (l2 ++ [c])%list. repeat split; auto.
        -- now rewrite <- app_assoc.
        -- apply Forall_app. split; [exact H2|]. constructor; [lia|constructor].
  - right. split; [reflexivity|].
    exists l1, p, l2, q, (l3 ++ [c])%list. repeat split; auto.
    rewrite <- app_assoc. simpl. rewrite <- app_assoc. reflexivity.
Qed.

Lemma fold_pickWinner_outcome rest done acc :
  reduceOutcome done acc ->
  reduceOutcome (done ++ rest) (fold_left pickWinner rest acc).
Proof.
  revert done acc. induction rest as [|c rest IH]; intros done acc H.
  - now rewrite app_nil_r.
  - simpl. replace (done ++ c :: rest)%list with ((done ++ [c]) ++ rest)%list
      by (rewrite <- app_assoc; reflexivity).
    apply IH. now apply pickWinner_outcome.
Qed.

(** X1: on any non-empty list of players the [reduce] of the exhaustion
    branch returns, and what it returns is either a player whose point is
    strictly greater than the point of every other player of the list, or the
    draw object, in which case two players have equal points, the first of
    them strictly ahead of everyone placed before the second. *)
Theorem X1_reduce_winner_is_strictly_ahead ps :
  ps <> [] ->
  exists acc, reduceWinner ps = Ok acc /\ reduceOutcome ps acc.
Proof.
  destruct ps as [|first rest]; [congruence|]. intros _.
  eexists. split; [reflexivity|].
  apply (fold_pickWinner_outcome rest [first] (acc_of first)).
  left. exists [], first, []. repeat split; constructor.
Qed.

Lemma X1_reduce_winner_is_strictly_ahead_witness :
  exists acc,
    reduceWinner [samplePlayer "a" 5 0; samplePlayer "b" 9 0; samplePlayer "c" 7 0]
      = Ok acc /\
    acc_id acc = "b".
Proof.
  destruct (X1_reduce_winner_is_strictly_ahead
              [samplePlayer "a" 5 0; samplePlayer "b" 9 0; samplePlayer "c" 7 0])
    as [acc [Hacc _]]; [discriminate|].
  exists acc. split; [exact Hacc|].
  injection Hacc as <-. reflexivity.
Defined.

Lemma defenderId_not_null room : defenderId room <> WNull.
Proof.
  unfold defenderId. destruct (find _ _); discriminate.
Qed.

Lemma score_test_false room :
  existsb (fun player => 40 <=? point player) (updatedPlayers room) = false <->
  (forall u, In u (updatedPlayers room) -> point u < 40).
Proof.
  split.
  - intros H u Hu. destruct (Z.leb_spec 40 (point u)) as [Hle|]; [|assumption].
    assert (E : existsb (fun player => 40 <=? point player) (updatedPlayers room) = true).
    { apply existsb_exists. exists u. split; [assumption|now apply Z.leb_le]. }
    congruence.
  - intros H. destruct (existsb _ _) eqn:E; [|reflexivity].
    apply existsb_exists in E. destruct E as [u [Hu Hp]].
    apply Z.leb_le in Hp. specialize (H u Hu). lia.
Qed.

Lemma elim_test_false room :
  existsb (fun player => shockedCount player =? 3) (updatedPlayers room) = false <->
  (forall u, In u (updatedPlayers room) -> shockedCount u <> 3).
Proof.
  split.
  - intros H u Hu Heq.
    assert (E : existsb (fun player => shockedCount player =? 3) (updatedPlayers room) = true).
    { apply existsb_exists. exists u. split; [assumption|now apply Z.eqb_eq]. }
    congruence.
  - intros H. destruct (existsb _ _) eqn:E; [|reflexivity].
    apply existsb_exists in E. destruct E as [u [Hu Hp]].
    apply Z.eqb_eq in Hp. now specialize (H u Hu).
Qed.

(** X2: the resolver writes a null [winnerId], the game goes on, exactly
    when no updated player has 40 points or more, no updated player has a
    [shockedCount] of exactly 3, and the number of chairs left after the
    update is not 1. *)
Theorem X2_game_goes_on_iff room :
  decideWinner room = Ok WNull <->
  (forall u, In u (updatedPlayers room) -> point u < 40) /\
  (forall u, In u (updatedPlayers room) -> shockedCount u <> 3) /\
  List.length (updatedChairs room) <> 1%nat.
Proof.
  rewrite <- score_test_false, <- elim_test_false. unfold decideWinner.
  destruct (existsb (fun player => 40 <=? point player) _).
  { split; [discriminate|intros [H _]; discriminate]. }
  destruct (existsb (fun player => shockedCount player =? 3) _).
  { split; [|intros [_ [H _]]; discriminate].
    intros [= H]. now apply defenderId_not_null in H. }
  destruct (Nat.eqb_spec (List.length (updatedChairs room)) 1) as [E|E].
  - split; [|intros [_ [_ H]]; contradiction].
    destruct (reduceWinner _); discriminate.
  - split; auto.
Qed.

(** X3: the resolver writes [undefined] to [winnerId] exactly when no
    updated player has 40 points or more, some updated player has a
    [shockedCount] of exactly 3, and every player of the room carries the
    attacker's id, so that no defender is found. *)
Theorem X3_winner_undefined_iff room :
  decideWinner room = Ok WUndefined <->
  (forall u, In u (updatedPlayers room) -> point u < 40) /\
  (exists u, In u (updatedPlayers room) /\ shockedCount u = 3) /\
  (forall p, In p (players room) -> id p = attackerId (round room)).
Proof.
  rewrite <- score_test_false. unfold decideWinner.
  destruct (existsb (fun player => 40 <=? point player) _).
  { split; [discriminate|intros [H _]; discriminate]. }
  destruct (existsb (fun player => shockedCount player =? 3) _) eqn:E2.
  - apply existsb_exists in E2. destruct E2 as [u [Hu Hsc]]. apply Z.eqb_eq in Hsc.
    unfold defenderId.
    destruct (find _ (players room)) as [d|] eqn:Ef.
    + split; [discriminate|]. intros [_ [_ Hall]]. exfalso.
      apply find_some in Ef. destruct Ef as [Hd Hb].
      rewrite (Hall d Hd), String.eqb_refl in Hb. discriminate.
    + split; [|reflexivity]. intros _. split; [reflexivity|]. split; [eauto|].
      intros p Hp. pose proof (find_none _ _ Ef p Hp) as Hb. simpl in Hb.
      destruct (String.eqb_spec (id p) (attackerId (round room))); [assumption|discriminate].
  - assert (Hno : ~ exists u, In u (updatedPlayers room) /\ shockedCount u = 3).
    { intros [u [Hu Hsc]]. apply (proj1 (elim_test_false room) E2 u Hu Hsc). }
    split; [|intros [_ [H _]]; contradiction].
    destruct (_ =? _)%nat; [destruct (reduceWinner _)|]; discriminate.
Qed.

(** X4: the resolver throws (the [TypeError] of [reduce] on an empty array)
    exactly when the room has no player and exactly one chair is left after
    the update; in every other case it returns its data. *)
Theorem X4_resolver_throws_iff room :
  activateData room = Throw_TypeError <->
  players room = [] /\ List.length (updatedChairs room) = 1%nat.
Proof.
  split.
  - intros H. destruct (players room) as [|p ps] eqn:Ep.
    + split; [reflexivity|].
      unfold activateData, decideWinner, updatedPlayers in H. rewrite Ep in H.
      simpl in H.
      destruct (Nat.eqb_spec (List.length (updatedChairs room)) 1); [assumption|discriminate].
    + destruct (activateData_total room) as [w [Hd _]]; [rewrite Ep; discriminate|].
      congruence.
  - intros [Hp Hc]. unfold activateData, decideWinner, updatedPlayers.
    rewrite Hp. simpl. apply Nat.eqb_eq in Hc. now rewrite Hc.
Qed.

(** X5: whenever the resolver returns, the players it writes carry, position
    by position, the ids, the names and the [ready] flags of the stored
    players: the resolver never renames, reorders, adds or drops a player. *)
Theorem X5_resolver_keeps_identities room data :
  activateData room = Ok data ->
  exists ps,
    p_players data = Some ps /\
    map id ps = map id (players room) /\
    map name ps = map name (players room) /\
    map ready ps = map ready (players room).
Proof.
  intros Hd. apply activateData_inv in Hd. destruct Hd as [w [_ ->]].
  exists (updatedPlayers room). split; [reflexivity|].
  unfold updatedPlayers. rewrite !map_map.
  repeat split; apply map_ext; intros p; unfold updatePlayer;
    destruct (id p =? attackerId (round room))%string; reflexivity.
Qed.

Lemma X5_resolver_keeps_identities_witness :
  exists data ps,
    activateData roomShockAtTen = Ok data /\
    p_players data = Some ps /\
    map id ps = ["p1"; "p2"].
Proof.
  destruct (activateData_total roomShockAtTen) as [w [Hd _]]; [discriminate|].
  destruct (X5_resolver_keeps_identities roomShockAtTen _ Hd) as [ps [Hps [Hid _]]].
  eexists. exists ps. split; [exact Hd|]. split; [exact Hps|]. exact Hid.
Defined.

(** X6: on a safe round with seated chair [s], the chairs the resolver
    writes are exactly the stored chairs other than [s]: [s] is never offered
    again and no other chair disappears; a list without duplicates stays
    without duplicates; and when [s] is not among the stored chairs the list
    is written back as it is (the seat is not checked against it). *)
Theorem X6_chairs_after_safe_seat room data s :
  activateData room = Ok data ->
  seatedChair (round room) = Some s ->
  electricChair (round room) <> Some s ->
  exists cs',
    p_remainingChairs data = Some cs' /\
    (forall c, In c cs' <-> In c (remainingChairs room) /\ c <> s) /\
    (NoDup (remainingChairs room) -> NoDup cs') /\
    (~ In s (remainingChairs room) -> cs' = remainingChairs room).
Proof.
  intros Hd Hs He. apply activateData_inv in Hd. destruct Hd as [w [_ ->]].
  exists (updatedChairs room). split; [reflexivity|].
  assert (Hsh : isShocked (round room) = false).
  { unfold isShocked. rewrite Hs. now apply chair_eqb_neq. }
  unfold updatedChairs. rewrite Hsh, Hs. simpl.
  split; [|split].
  - intros c. rewrite filter_In.
    destruct (Z.eqb_spec c s); simpl; split; intros [H1 H2]; split;
      auto; congruence.
  - apply NoDup_filter.
  - intros Hnot. apply forallb_filter_id. apply forallb_forall.
    intros c Hc. destruct (Z.eqb_spec c s); [subst; contradiction|reflexivity].
Qed.

Lemma X6_chairs_after_safe_seat_witness :
  let room := sampleRoom [samplePlayer "p1" 5 0; samplePlayer "p2" 0 0]
                (sampleRound "p1" (Some 7) (Some 3)) [3; 7; 9] in
  exists data cs',
    activateData room = Ok data /\
    p_remainingChairs data = Some cs' /\
    ~ In 3 cs' /\ In 9 cs'.
Proof.
  intros room.
  destruct (activateData_total room) as [w [Hd _]]; [discriminate|].
  destruct (X6_chairs_after_safe_seat room _ 3 Hd) as [cs' [Hcs [Hin _]]];
    [reflexivity|discriminate|].
  eexists. exists cs'. split; [exact Hd|]. split; [exact Hcs|]. split.
  - intros H. apply Hin in H. destruct H as [_ H]. now apply H.
  - apply Hin. split; [simpl; auto|discriminate].
Defined.

Lemma updatePlayer_resultRound r p :
  updatePlayer (resultRound r) p = updatePlayer r p.
Proof.
  reflexivity.
Qed.

Lemma filter_filter_same {A} (f : A -> bool) l :
  filter f (filter f l) = filter f l.
Proof.
  apply forallb_filter_id. apply forallb_forall.
  intros x Hx. apply filter_In in Hx. tauto.
Qed.

Lemma activateAction_total room :
  players room <> [] ->
  exists w,
    activateAction room =
    Ok (mkGameRoom (roomId room) (updatedPlayers room) (resultRound (round room))
          (updatedChairs room) w).
Proof.
  intros Hne. destruct (activateData_total room Hne) as [w [Hd _]].
  exists w. unfold activateAction. now rewrite Hd.
Qed.

Lemma updatePlayer_twice r p :
  id p = attackerId r ->
  (isShocked r = false ->
     point (updatePlayer r (updatePlayer r p)) = point p + 2 * seatedOrZero r /\
     shockedCount (updatePlayer r (updatePlayer r p)) = shockedCount p) /\
  (isShocked r = true ->
     point (updatePlayer r (updatePlayer r p)) = 0 /\
     shockedCount (updatePlayer r (updatePlayer r p)) = shockedCount p + 2).
Proof.
  intros Hid. unfold updatePlayer. rewrite Hid, String.eqb_refl.
  cbn [id point shockedCount]. rewrite String.eqb_refl.
  destruct (isShocked r); cbn [point shockedCount]; split; intros;
    try discriminate; split; lia.
Qed.

Lemma updatedChairs_twice room w :
  updatedChairs (mkGameRoom (roomId room) (updatedPlayers room)
                   (resultRound (round room)) (updatedChairs room) w)
  = updatedChairs room.
Proof.
  unfold updatedChairs. simpl.
  change (isShocked (resultRound (round room))) with (isShocked (round room)).
  destruct (isShocked (round room)); [reflexivity|apply filter_filter_same].
Qed.

(** X7: the resolver is not idempotent.  Applied a second time to the room
    it has just stored, it scores the same round again: on a safe round the
    attacker ends with twice the seated chair added to the point, while the
    second application leaves the remaining chairs as the first one left
    them; on a shocked round the attacker's [shockedCount] ends 2 higher. *)
Theorem X7_resolver_applied_twice room i p :
  nth_error (players room) i = Some p ->
  id p = attackerId (round room) ->
  exists room1 room2 u,
    activateAction room = Ok room1 /\
    activateAction room1 = Ok room2 /\
    nth_error (players room2) i = Some u /\
    (isShocked (round room) = false ->
       point u = point p + 2 * seatedOrZero (round room) /\
       shockedCount u = shockedCount p /\
       remainingChairs room2 = remainingChairs room1) /\
    (isShocked (round room) = true ->
       point u = 0 /\ shockedCount u = shockedCount p + 2 /\
       remainingChairs room2 = remainingChairs room).
Proof.
  intros Hp Hid.
  destruct (activateAction_total room (nth_error_nonempty _ _ _ Hp)) as [w1 H1].
  set (room1 := mkGameRoom (roomId room) (updatedPlayers room)
                  (resultRound (round room)) (updatedChairs room) w1) in *.
  assert (Hp1 : nth_error (players room1) i = Some (updatePlayer (round room) p)).
  { simpl. now rewrite updatedPlayers_nth, Hp. }
  destruct (activateAction_total room1 (nth_error_nonempty _ _ _ Hp1)) as [w2 H2].
  do 2 eexists. exists (updatePlayer (round room) (updatePlayer (round room) p)).
  split; [exact H1|]. split; [exact H2|]. split.
  { simpl. rewrite updatedPlayers_nth, Hp1. reflexivity. }
  destruct (updatePlayer_twice (round room) p Hid) as [Hsafe Hshock].
  simpl. unfold room1. rewrite updatedChairs_twice.
  split; intros Hsh.
  - destruct (Hsafe Hsh). auto.
  - destruct (Hshock Hsh). repeat split; auto.
    unfold updatedChairs. now rewrite Hsh.
Qed.

Lemma X7_resolver_applied_twice_witness :
  let room := sampleRoom [samplePlayer "p1" 5 0; samplePlayer "p2" 0 0]
                (sampleRound "p1" (Some 7) (Some 3)) [3; 7; 9] in
  exists room1 room2 u,
    activateAction room = Ok room1 /\
    activateAction room1 = Ok room2 /\
    nth_error (players room2) 0 = Some u /\
    point u = 5 + 2 * 3.
Proof.
  intros room.
  destruct (X7_resolver_applied_twice room 0 (samplePlayer "p1" 5 0))
    as [room1 [room2 [u [H1 [H2 [Hu [Hsafe _]]]]]]]; [reflexivity|reflexivity|].
  exists room1, room2, u. repeat split; auto.
  now destruct (Hsafe eq_refl) as [Hpt _].
Defined.

(** * Further properties of the barrier's resolver function *)

(** X8: the resolver function of [changeTurnAction] returns null exactly
    when the number of confirmed ids it receives is neither 1 nor 2 (the
    empty sequence included); every update it returns supplies [round] and
    nothing else: no players, no remaining chairs, no [winnerId]. *)
Theorem X8_barrier_update_shape plainRound r ids :
  (changeTurnResolver plainRound r ids = None <->
   List.length ids <> 1%nat /\ List.length ids <> 2%nat) /\
  (forall data,
     changeTurnResolver plainRound r ids = Some data ->
     p_round data <> None /\ p_players data = None /\
     p_remainingChairs data = None /\ p_winnerId data = None).
Proof.
  split.
  - unfold changeTurnResolver.
    destruct (Nat.eqb_spec (List.length ids) 1) as [E1|E1].
    { split; [discriminate|intros [H _]; contradiction]. }
    destruct (Nat.eqb_spec (List.length ids) 2) as [E2|E2].
    { split; [destruct (turn r); discriminate|intros [_ H]; contradiction]. }
    split; auto.
  - intros data H. apply changeTurnResolver_round_only in H.
    destruct H as [next ->]. simpl. repeat split. discriminate.
Qed.

Lemma changeTurnResolver_two plainRound r a b :
  changeTurnResolver plainRound r [a; b] =
  Some (roundOnly
          (mkRound (nextAttackerId r [a; b])
             (match turn r with top => bottom | bottom => top end)
             (match turn r with top => count r | bottom => count r + 1 end)
             (phase plainRound) (electricChair plainRound)
             (seatedChair plainRound) (result plainRound))).
Proof.
  unfold changeTurnResolver. simpl. destruct (turn r); reflexivity.
Qed.

(** X9: two consecutive advances complete one cycle.  Whatever the ids
    confirmed, the round built by the second confirmation of a round and then
    by the second confirmation of that next round has the turn of the
    original round and its count plus 1; a single advance never lowers the
    count and raises it by at most 1. *)
Theorem X9_two_advances_complete_a_cycle plainRound r a b c d :
  exists n1 n2,
    changeTurnResolver plainRound r [a; b]
      = Some (mkPartial None (Some n1) None None) /\
    changeTurnResolver plainRound n1 [c; d]
      = Some (mkPartial None (Some n2) None None) /\
    turn n1 <> turn r /\
    count r <= count n1 <= count r + 1 /\
    turn n2 = turn r /\
    count n2 = count r + 1.
Proof.
  do 2 eexists. split; [apply changeTurnResolver_two|].
  split; [apply changeTurnResolver_two|].
  simpl. destruct (turn r); repeat split; try discriminate; lia.
Qed.

Lemma nextAttackerId_other r a b :
  a <> b -> attackerId r = a \/ attackerId r = b ->
  nextAttackerId r [a; b] <> attackerId r /\
  (nextAttackerId r [a; b] = a \/ nextAttackerId r [a; b] = b).
Proof.
  intros Hab Hatt. unfold nextAttackerId. simpl.
  destruct (String.eqb_spec a (attackerId r)) as [Ha|Ha]; simpl.
  - destruct (String.eqb_spec b (attackerId r)) as [Hb|Hb]; simpl.
    + congruence.
    + split; [assumption|now right].
  - split; [assumption|now left].
Qed.

(** X10: when the two confirmed ids are distinct and one of them is the
    current attacker, the next attacker is the other one, in whichever order
    the two players confirmed; after a second advance confirmed by the same
    two players the original attacker attacks again. *)
Theorem X10_attackers_alternate plainRound r a b ids1 ids2 :
  a <> b ->
  attackerId r = a \/ attackerId r = b ->
  ids1 = [a; b] \/ ids1 = [b; a] ->
  ids2 = [a; b] \/ ids2 = [b; a] ->
  exists n1 n2,
    changeTurnResolver plainRound r ids1
      = Some (mkPartial None (Some n1) None None) /\
    changeTurnResolver plainRound n1 ids2
      = Some (mkPartial None (Some n2) None None) /\
    attackerId n1 <> attackerId r /\
    (attackerId n1 = a \/ attackerId n1 = b) /\
    attackerId n2 = attackerId r.
Proof.
  intros Hab Hatt H1 H2.
  assert (Hba : b <> a) by congruence.
  assert (Hatt' : attackerId r = b \/ attackerId r = a) by tauto.
  assert (Hstep : forall r' ids,
            attackerId r' = a \/ attackerId r' = b ->
            ids = [a; b] \/ ids = [b; a] ->
            exists n, changeTurnResolver plainRound r' ids = Some (roundOnly n) /\
                      attackerId n <> attackerId r' /\
                      (attackerId n = a \/ attackerId n = b)).
  { intros r' ids Hr' [-> | ->]; eexists;
      (split; [apply changeTurnResolver_two|]); simpl.
    - now apply nextAttackerId_other.
    - destruct (nextAttackerId_other r' b a) as [Hn [Hx|Hx]]; auto; tauto. }
  destruct (Hstep r ids1 Hatt H1) as [n1 [E1 [Hn1 Ho1]]].
  destruct (Hstep n1 ids2 Ho1 H2) as [n2 [E2 [Hn2 Ho2]]].
  exists n1, n2. repeat split; auto.
  destruct Hatt, Ho1, Ho2; congruence.
Qed.

Lemma X10_attackers_alternate_witness :
  let r := mkRound "p1" top 1 phase_result (Some 3) (Some 5)
             (mkRoundResult (Some safe) ["p2"] true) in
  exists n1 n2,
    changeTurnResolver plainRoundData_round r ["p2"; "p1"]
      = Some (mkPartial None (Some n1) None None) /\
    changeTurnResolver plainRoundData_round n1 ["p1"; "p2"]
      = Some (mkPartial None (Some n2) None None) /\
    attackerId n1 = "p2" /\ attackerId n2 = "p1".
Proof.
  intros r.
  destruct (X10_attackers_alternate plainRoundData_round r "p1" "p2"
              ["p2"; "p1"] ["p1"; "p2"])
    as [n1 [n2 [E1 [E2 [Hne [Hor Hback]]]]]];
    [discriminate | left; reflexivity | right; reflexivity | left; reflexivity |].
  exists n1, n2. split; [exact E1|]. split; [exact E2|]. split.
  - destruct Hor as [H|H]; [|exact H]. exfalso. apply Hne. exact H.
  - exact Hback.
Defined.

(** * Properties of [entryRoomAction] *)

Lemma markReady_fields u p :
  id (markReady u p) = id p /\ name (markReady u p) = name p /\
  point (markReady u p) = point p /\
  shockedCount (markReady u p) = shockedCount p.
Proof.
  unfold markReady. destruct (id p =? u)%string; repeat split.
Qed.

Lemma markReady_other u p : id p <> u -> markReady u p = p.
Proof.
  intros Hne. unfold markReady.
  destruct (String.eqb_spec (id p) u); [contradiction|reflexivity].
Qed.

Lemma markReady_ready u p :
  ready (markReady u p) = true <-> id p = u \/ ready p = true.
Proof.
  unfold markReady. destruct (String.eqb_spec (id p) u); simpl; intuition.
Qed.

Lemma entryRoomData_inv room u data :
  entryRoomData room u = EntryData data ->
  data = mkGameRoom (roomId room) (map (markReady u) (players room))
           (round room) (remainingChairs room) (winnerId room) /\
  exists p, In p (players room) /\ id p = u.
Proof.
  unfold entryRoomData.
  destruct (existsb _ (players room)) eqn:E; [|discriminate].
  intros [= <-]. split; [reflexivity|].
  apply existsb_exists in E. destruct E as [p [Hp Hid]].
  exists p. split; [assumption|]. now apply String.eqb_eq.
Qed.

Lemma entryRoomData_member room u p :
  In p (players room) -> id p = u ->
  entryRoomData room u =
  EntryData (mkGameRoom (roomId room) (map (markReady u) (players room))
               (round room) (remainingChairs room) (winnerId room)).
Proof.
  intros Hp Hid. unfold entryRoomData.
  assert (E : existsb (fun player => (id player =? u)%string) (players room) = true).
  { apply existsb_exists. exists p. split; [assumption|]. now apply String.eqb_eq. }
  now rewrite E.
Qed.

(** X11: [entryRoomAction] answers with its "not a player of this room"
    error, and prepares nothing to write, exactly when no player of the room
    carries the entering id; otherwise it prepares the data to write. *)
Theorem X11_entry_rejects_strangers room userId :
  (entryRoomData room userId
     = EntryError "このルームのプレイヤーではありません" <->
   forall p, In p (players room) -> id p <> userId) /\
  ((exists data, entryRoomData room userId = EntryData data) <->
   exists p, In p (players room) /\ id p = userId).
Proof.
  unfold entryRoomData.
  destruct (existsb (fun player => (id player =? userId)%string) (players room)) eqn:E.
  - apply existsb_exists in E. destruct E as [p [Hp Hid]]. apply String.eqb_eq in Hid.
    split; split.
    + discriminate.
    + intros H. exfalso. now apply (H p Hp).
    + intros _. eauto.
    + intros _. eauto.
  - split; split.
    + intros _ p Hp Hid.
      assert (existsb (fun player => (id player =? userId)%string) (players room) = true).
      { apply existsb_exists. exists p. split; [assumption|]. now apply String.eqb_eq. }
      congruence.
    + reflexivity.
    + intros [data H]. discriminate.
    + intros [p [Hp Hid]].
      assert (existsb (fun player => (id player =? userId)%string) (players room) = true).
      { apply existsb_exists. exists p. split; [assumption|]. now apply String.eqb_eq. }
      congruence.
Qed.

(** X12: the data [entryRoomAction] writes is the room with, position by
    position, the same players: ids, names, points and shock counters are
    kept, a player with another id is untouched, the entering player is
    ready, and a player who was ready stays ready; the room id, the round,
    the remaining chairs and [winnerId] are those of the room. *)
Theorem X12_entry_only_sets_ready room userId data :
  entryRoomData room userId = EntryData data ->
  roomId data = roomId room /\ round data = round room /\
  remainingChairs data = remainingChairs room /\
  winnerId data = winnerId room /\
  List.length (players data) = List.length (players room) /\
  forall i p,
    nth_error (players room) i = Some p ->
    exists p',
      nth_error (players data) i = Some p' /\
      id p' = id p /\ name p' = name p /\ point p' = point p /\
      shockedCount p' = shockedCount p /\
      (id p = userId -> ready p' = true) /\
      (id p <> userId -> p' = p) /\
      (ready p = true -> ready p' = true).
Proof.
  intros H. apply entryRoomData_inv in H. destruct H as [-> _]. simpl.
  repeat split; try apply length_map.
  intros i p Hp. exists (markReady userId p).
  split; [now rewrite nth_error_map, Hp|].
  destruct (markReady_fields userId p) as [H1 [H2 [H3 H4]]].
  repeat split; auto.
  - intros Hid. apply markReady_ready. now left.
  - apply markReady_other.
  - intros Hr. apply markReady_ready. now right.
Qed.

Lemma X12_entry_only_sets_ready_witness :
  exists data p',
    entryRoomData roomBeforeEntry "p2" = EntryData data /\
    nth_error (players data) 1 = Some p' /\
    ready p' = true /\ name p' = "two".
Proof.
  destruct (entryRoomData roomBeforeEntry "p2") as [e|data] eqn:E; [discriminate|].
  destruct (X12_entry_only_sets_ready roomBeforeEntry "p2" data E)
    as [_ [_ [_ [_ [_ H]]]]].
  destruct (H 1%nat (mkPlayer "p2" "two" false 0 0) eq_refl)
    as [p' [Hn [_ [Hname [_ [_ [Hr _]]]]]]].
  exists data, p'. split; [reflexivity|]. split; [exact Hn|].
  split; [now apply Hr|exact Hname].
Defined.

Lemma markReady_idem u p : markReady u (markReady u p) = markReady u p.
Proof.
  unfold markReady. destruct (id p =? u)%string eqn:E; simpl; now rewrite E.
Qed.

Lemma markReady_comm u v p :
  markReady v (markReady u p) = markReady u (markReady v p).
Proof.
  unfold markReady.
  destruct (id p =? u)%string eqn:Eu; destruct (id p =? v)%string eqn:Ev;
    simpl; rewrite ?Eu, ?Ev; reflexivity.
Qed.

Lemma In_map_markReady u ps p :
  In p ps -> In (markReady u p) (map (markReady u) ps).
Proof.
  apply in_map.
Qed.

(** X13: entering is idempotent and entries commute.  A player who enters
    again gets the very same data written; and two players entering one
    after the other leave the same room whichever comes first. *)
Theorem X13_entry_idempotent_and_commutes room u v d1 d2 :
  entryRoomData room u = EntryData d1 ->
  entryRoomData room v = EntryData d2 ->
  entryRoomData d1 u = EntryData d1 /\
  exists d, entryRoomData d1 v = EntryData d /\ entryRoomData d2 u = EntryData d.
Proof.
  intros H1 H2.
  apply entryRoomData_inv in H1. destruct H1 as [-> [pu [Hpu Hu]]].
  apply entryRoomData_inv in H2. destruct H2 as [-> [pv [Hpv Hv]]].
  split.
  - rewrite (entryRoomData_member _ u (markReady u pu)).
    + simpl. rewrite map_map. f_equal. f_equal.
      apply map_ext. intros p. apply markReady_idem.
    + simpl. now apply in_map.
    + now rewrite (proj1 (markReady_fields u pu)).
  - eexists. split.
    + rewrite (entryRoomData_member _ v (markReady u pv)).
      * reflexivity.
      * simpl. now apply in_map.
      * now rewrite (proj1 (markReady_fields u pv)).
    + rewrite (entryRoomData_member _ u (markReady v pu)).
      * simpl. rewrite !map_map. f_equal. f_equal.
        apply map_ext. intros p. apply markReady_comm.
      * simpl. now apply in_map.
      * now rewrite (proj1 (markReady_fields v pu)).
Qed.

Lemma X13_entry_idempotent_and_commutes_witness :
  exists d1 d2 d,
    entryRoomData roomBeforeEntry "p1" = EntryData d1 /\
    entryRoomData roomBeforeEntry "p2" = EntryData d2 /\
    entryRoomData d1 "p2" = EntryData d /\
    entryRoomData d2 "p1" = EntryData d.
Proof.
  destruct (entryRoomData roomBeforeEntry "p1") as [e|d1] eqn:E1; [discriminate|].
  destruct (entryRoomData roomBeforeEntry "p2") as [e|d2] eqn:E2; [discriminate|].
  destruct (X13_entry_idempotent_and_commutes roomBeforeEntry "p1" "p2" d1 d2 E1 E2)
    as [_ [d [Ha Hb]]].
  exists d1, d2, d. repeat split; assumption.
Defined.

(** X14: once every id of the room has entered, every player is ready: if
    each player of the room carries the id [u] or the id [v], then after the
    entry of [u] followed by the entry of [v] all players of the room written
    have [ready] set. *)
Theorem X14_all_ready_after_both_entries room u v d1 d2 :
  entryRoomData room u = EntryData d1 ->
  entryRoomData d1 v = EntryData d2 ->
  (forall p, In p (players room) -> id p = u \/ id p = v) ->
  forall p, In p (players d2) -> ready p = true.
Proof.
  intros H1 H2 Hids.
  apply entryRoomData_inv in H1. destruct H1 as [-> _].
  apply entryRoomData_inv in H2. destruct H2 as [-> _]. simpl.
  intros p Hp. rewrite map_map in Hp. apply in_map_iff in Hp.
  destruct Hp as [q [<- Hq]].
  apply markReady_ready. rewrite (proj1 (markReady_fields u q)).
  destruct (Hids q Hq) as [Hu|Hv]; [right|now left].
  apply markReady_ready. now left.
Qed.

Lemma X14_all_ready_after_both_entries_witness :
  exists d1 d2,
    entryRoomData roomBeforeEntry "p1" = EntryData d1 /\
    entryRoomData d1 "p2" = EntryData d2 /\
    forall p, In p (players d2) -> ready p = true.
Proof.
  destruct (entryRoomData roomBeforeEntry "p1") as [e|d1] eqn:E1; [discriminate|].
  destruct (entryRoomData d1 "p2") as [e|d2] eqn:E2.
  - injection E1 as <-. discriminate.
  - exists d1, d2. split; [reflexivity|]. split; [exact E2|].
    apply (X14_all_ready_after_both_entries roomBeforeEntry "p1" "p2" d1 d2 E1 E2).
    intros p [<-|[<-|[]]]; [left|right]; reflexivity.
Defined.

Lemma updatePlayer_markReady r u p :
  updatePlayer r (markReady u p) = markReady u (updatePlayer r p).
Proof.
  unfold updatePlayer, markReady.
  destruct (id p =? u)%string eqn:Eu; destruct (id p =? attackerId r)%string eqn:Ea;
    simpl; rewrite ?Eu, ?Ea; reflexivity.
Qed.

Lemma existsb_map_markReady (f : Player -> bool) u ps :
  (forall p, f (markReady u p) = f p) ->
  existsb f (map (markReady u) ps) = existsb f ps.
Proof.
  intros Hf. induction ps as [|p ps IH]; [reflexivity|].
  simpl. now rewrite Hf, IH.
Qed.

Lemma pickWinner_markReady acc u c :
  pickWinner acc (markReady u c) = pickWinner acc c.
Proof.
  unfold pickWinner, acc_of.
  destruct (markReady_fields u c) as [-> [_ [-> _]]]. reflexivity.
Qed.

Lemma reduceWinner_markReady u ps :
  reduceWinner (map (markReady u) ps) = reduceWinner ps.
Proof.
  destruct ps as [|first rest]; [reflexivity|]. simpl. f_equal.
  assert (H0 : acc_of (markReady u first) = acc_of first).
  { unfold acc_of. now destruct (markReady_fields u first) as [-> [_ [-> _]]]. }
  rewrite H0. generalize (acc_of first) as acc.
  induction rest as [|c rest IH]; intros acc; [reflexivity|].
  simpl. now rewrite pickWinner_markReady, IH.
Qed.

Lemma find_map_markReady (f : Player -> bool) u ps :
  (forall p, f (markReady u p) = f p) ->
  find f (map (markReady u) ps) = option_map (markReady u) (find f ps).
Proof.
  intros Hf. induction ps as [|p ps IH]; [reflexivity|].
  simpl. rewrite Hf. destruct (f p); [reflexivity|exact IH].
Qed.

(** X15: the [ready] flags play no part in the outcome of a round.  On the
    room written by an entry the resolver decides the same [winnerId] (or
    throws likewise) and leaves the same chairs as on the room before the
    entry, and the players it computes are those it computes before the
    entry, with the entering player marked ready. *)
Theorem X15_readiness_does_not_change_outcome room userId data :
  entryRoomData room userId = EntryData data ->
  decideWinner data = decideWinner room /\
  updatedChairs data = updatedChairs room /\
  updatedPlayers data = map (markReady userId) (updatedPlayers room).
Proof.
  intros H. apply entryRoomData_inv in H. destruct H as [-> _].
  assert (Hups : updatedPlayers
                   (mkGameRoom (roomId room) (map (markReady userId) (players room))
                      (round room) (remainingChairs room) (winnerId room))
                 = map (markReady userId) (updatedPlayers room)).
  { unfold updatedPlayers. simpl. rewrite !map_map. apply map_ext.
    intros p. apply updatePlayer_markReady. }
  split; [|split; [reflexivity|exact Hups]].
  unfold decideWinner. rewrite Hups.
  rewrite !existsb_map_markReady, reduceWinner_markReady.
  - replace (defenderId (mkGameRoom (roomId room) (map (markReady userId) (players room))
                           (round room) (remainingChairs room) (winnerId room)))
      with (defenderId room); [reflexivity|].
    unfold defenderId. simpl. rewrite find_map_markReady.
    + destruct (find _ (players room)) as [d|]; simpl; [|reflexivity].
      now rewrite (proj1 (markReady_fields userId d)).
    + intros p. now rewrite (proj1 (markReady_fields userId p)).
  - intros p. now destruct (markReady_fields userId p) as [_ [_ [_ ->]]].
  - intros p. now destruct (markReady_fields userId p) as [_ [_ [-> _]]].
Qed.

Lemma X15_readiness_does_not_change_outcome_witness :
  exists data,
    entryRoomData roomShockAtTen "p2" = EntryData data /\
    decideWinner data = decideWinner roomShockAtTen.
Proof.
  destruct (entryRoomData roomShockAtTen "p2") as [e|data] eqn:E; [discriminate|].
  exists data. split; [reflexivity|].
  apply (X15_readiness_does_not_change_outcome roomShockAtTen "p2" data E).
Defined.

(** * Properties of [selectChairAction] *)

(** X16: [selectChairAction] issues no write exactly when the room id is
    null or empty or the round data is missing, and it then answers 400 with
    its own message; in every other case it issues exactly one write, to the
    given room, that supplies [round] alone and carries the caller's round
    unchanged (nothing in it is checked), and it answers 200 with an empty
    error when the store answered 200, passing the store's status and error
    on otherwise. *)
Theorem X16_select_validates_presence_only updateRoom roomId roundData :
  let out := selectChairAction updateRoom roomId roundData in
  (fst out = [] <-> roomId = None \/ roomId = Some "" \/ roundData = None) /\
  (fst out = [] ->
     snd out = mkActionResponse 400
                 (Some "ルームIDとラウンドデータを指定してください")) /\
  (forall rid rd,
     roomId = Some rid -> rid <> "" -> roundData = Some rd ->
     fst out = [(rid, mkPartial None (Some rd) None None)] /\
     (store_status (updateRoom rid (roundOnly rd)) = 200 ->
        snd out = mkActionResponse 200 (Some "")) /\
     (store_status (updateRoom rid (roundOnly rd)) <> 200 ->
        snd out = mkActionResponse
                    (store_status (updateRoom rid (roundOnly rd)))
                    (store_error (updateRoom rid (roundOnly rd))))).
Proof.
  intros out. subst out. split; [|split].
  - destruct roomId as [rid|]; [|simpl; tauto].
    destruct roundData as [rd|]; [|simpl; tauto].
    simpl. destruct (String.eqb_spec rid "") as [->|Hne]; simpl.
    + tauto.
    + split; [discriminate|].
      intros [H|[H|H]]; try discriminate. injection H as ->. contradiction.
  - destruct roomId as [rid|]; [|reflexivity].
    destruct roundData as [rd|]; [|reflexivity].
    simpl. destruct (rid =? "")%string; [reflexivity|discriminate].
  - intros rid rd -> Hne ->. simpl.
    destruct (String.eqb_spec rid ""); [contradiction|]. simpl.
    split; [reflexivity|].
    destruct (Z.eqb_spec (store_status (updateRoom rid (roundOnly rd))) 200);
      split; intros; try contradiction; reflexivity.
Qed.

Lemma X16_select_validates_presence_only_witness :
  let store := fun (_ : string) (_ : PartialGameRoom) => mkStoreResponse 200 None in
  let rd := sampleRound "p1" (Some 5) (Some 99) in
  fst (selectChairAction store (Some "room") (Some rd))
    = [("room", mkPartial None (Some rd) None None)] /\
  snd (selectChairAction store (Some "room") (Some rd))
    = mkActionResponse 200 (Some "").
Proof.
  intros store rd.
  destruct (X16_select_validates_presence_only store (Some "room") (Some rd))
    as [_ [_ H]].
  destruct (H "room" rd eq_refl) as [Hw [Hok _]]; [discriminate|reflexivity|].
  split; [exact Hw|]. apply Hok. reflexivity.
Defined.

(** * Properties of [setCookies], [createRoomAction] and [joinRoomAction] *)

Lemma setCookies_app nameValues cookieStore :
  setCookies nameValues cookieStore = (cookieStore ++ map cookieOf nameValues)%list.
Proof.
  unfold setCookies. revert cookieStore.
  induction nameValues as [|nv nvs IH]; intros cookieStore; simpl.
  - now rewrite app_nil_r.
  - rewrite IH, <- app_assoc. reflexivity.
Qed.

(** X17: [setCookies] keeps the cookies already set, in their order, and
    sets after them one cookie per entry, in the order of the entries, with
    the entry's name, with the entry's value or the empty string when the
    value is missing, and always with [sameSite] "strict", [secure] and
    [httpOnly]. *)
Theorem X17_setCookies_appends_hardened_cookies nameValues cookieStore :
  exists added,
    setCookies nameValues cookieStore = (cookieStore ++ added)%list /\
    map cookie_name added = map fst nameValues /\
    map cookie_value added = map (fun nv => valueOrEmpty (snd nv)) nameValues /\
    Forall (fun c => sameSite c = "strict" /\ secure c = true /\ httpOnly c = true)
           added.
Proof.
  exists (map cookieOf nameValues). split; [apply setCookies_app|].
  rewrite !map_map. repeat split.
  apply Forall_forall. intros c Hc. apply in_map_iff in Hc.
  destruct Hc as [nv [<- _]]. simpl. auto.
Qed.

(** X18: [createRoomAction] sets cookies only when [createRoom] answered
    200.  On any other status it returns the answer's error and leaves the
    cookie store as it is; on 200 it adds exactly the cookies "roomId" and
    "userId", in this order, both hardened, and redirects; the path is
    "/room/" followed by the value of the "roomId" cookie whenever the answer
    carries a room id, and "/room/undefined", beside an empty cookie, when it
    carries none. *)
Theorem X18_create_sets_cookies_on_success_only res cookieStore :
  let out := createRoomAction res cookieStore in
  (rr_status res <> 200 ->
     out = (cookieStore, ReturnError (rr_error res))) /\
  (rr_status res = 200 ->
     exists c1 c2,
       fst out = (cookieStore ++ [c1; c2])%list /\
       cookie_name c1 = "roomId" /\ cookie_name c2 = "userId" /\
       cookie_value c2 = valueOrEmpty (rr_userId res) /\
       secure c1 = true /\ httpOnly c1 = true /\ sameSite c1 = "strict" /\
       secure c2 = true /\ httpOnly c2 = true /\ sameSite c2 = "strict" /\
       (forall rid, rr_roomId res = Some rid ->
          cookie_value c1 = rid /\ snd out = Redirect ("/room/" ++ rid)%string) /\
       (rr_roomId res = None ->
          cookie_value c1 = "" /\ snd out = Redirect "/room/undefined")).
Proof.
  intros out. subst out. unfold createRoomAction.
  destruct (Z.eqb_spec (rr_status res) 200) as [E|E]; cbn [negb].
  - split; [intros; contradiction|]. intros _.
    rewrite setCookies_app. simpl.
    do 2 eexists. split; [reflexivity|]. simpl. repeat split.
    + now rewrite H.
    + now rewrite H.
    + now rewrite H.
    + now rewrite H.
  - split; [reflexivity|intros; contradiction].
Qed.

Lemma X18_create_sets_cookies_on_success_only_witness :
  createRoomAction (mkRoomResponse 500 (Some "down") None None) []
    = ([], ReturnError (Some "down")).
Proof.
  apply (X18_create_sets_cookies_on_success_only
           (mkRoomResponse 500 (Some "down") None None) []).
  discriminate.
Defined.

(** X19: [joinRoomAction] answers a missing or empty room id with its own
    error without consulting [joinRoom] and without touching the cookie
    store, whatever [joinRoom] would have answered. *)
Theorem X19_join_rejects_empty_room_id joinRoom formRoomId cookieStore :
  formRoomId = None \/ formRoomId = Some "" ->
  joinRoomAction joinRoom formRoomId cookieStore
    = (cookieStore, ReturnError (Some "ルームIDを入力してください")).
Proof.
  intros [-> | ->]; reflexivity.
Qed.

Lemma X19_join_rejects_empty_room_id_witness :
  joinRoomAction (fun _ => mkRoomResponse 200 None (Some "r") (Some "u"))
    (Some "") []
    = ([], ReturnError (Some "ルームIDを入力してください")).
Proof.
  apply X19_join_rejects_empty_room_id. right. reflexivity.
Defined.

(** X20: for a non-empty room id [joinRoomAction] consults [joinRoom] on
    that id.  On a status other than 200 it returns the answer's error and
    sets no cookie.  On 200 it adds exactly the hardened cookies "roomId" and
    "userId", whose values are the ids of the answer (or the empty string
    for a missing one), and redirects to "/room/" followed by the id that
    was submitted, not the one of the answer. *)
Theorem X20_join_outcome joinRoom roomId cookieStore :
  roomId <> "" ->
  let res := joinRoom roomId in
  let out := joinRoomAction joinRoom (Some roomId) cookieStore in
  (rr_status res <> 200 ->
     out = (cookieStore, ReturnError (rr_error res))) /\
  (rr_status res = 200 ->
     out = ((cookieStore ++
             [mkCookie "roomId" (valueOrEmpty (rr_roomId res)) "strict" true true;
              mkCookie "userId" (valueOrEmpty (rr_userId res)) "strict" true true])%list,
            Redirect ("/room/" ++ roomId)%string)).
Proof.
  intros Hne res out. subst res out. unfold joinRoomAction.
  destruct (String.eqb_spec roomId ""); [contradiction|].
  destruct (Z.eqb_spec (rr_status (joinRoom roomId)) 200) as [E|E]; cbn [negb].
  - split; [intros; contradiction|]. intros _. now rewrite setCookies_app.
  - split; [reflexivity|intros; contradiction].
Qed.

Lemma X20_join_outcome_witness :
  snd (joinRoomAction (fun _ => mkRoomResponse 200 None (Some "other") (Some "u"))
         (Some "mine") [])
    = Redirect "/room/mine".
Proof.
  destruct (X20_join_outcome
              (fun _ => mkRoomResponse 200 None (Some "other") (Some "u")) "mine" [])
    as [_ H]; [discriminate|].
  rewrite (H eq_refl). reflexivity.
Defined.
